(** * pyblish-qml: the host bridge ([pyblish_qml/host.py])

    A shallow embedding of the orchestration bridge between a host
    application and the QML GUI subprocess: the process-wide registry
    [_state], the dispatch wrapper, the host adapter chain and the
    show / publish / validate lifecycle.

    Python code is embedded in a state-and-exception monad [M] over a
    record [World] that gathers every piece of mutable data [host.py]
    touches.  Calls into collaborators that live outside [host.py] (the IPC
    server and proxy, Qt, the host applications) get their outcome from an
    [Oracle] and leave an [event] in the world's trace. *)

From stdpp Require Import base option list gmap strings.
From Stdlib Require Import Ascii String.

Local Open Scope string_scope.
Local Open Scope list_scope.

(** ** Exceptions *)

(** The exception classes that occur in [host.py], plus [KeyboardInterrupt]
    and [SystemExit], which derive from [BaseException] but not from
    [Exception].  [IOError] and [OSError] are kept apart, as in Python 2
    (the source uses [inspect.getargspec]); Python 3 makes them one class.
    No statement below says of [OSError], where an [IOError] clause is
    involved, anything that holds on one interpreter only. *)
Inductive exn : Type :=
  | ImportError
  | IOError
  | OSError
  | KeyError (key : string)
  | TypeError (msg : string)
  | AttributeError
  | RuntimeError
  | ValueError
  | AssertionError (msg : string)
  | KeyboardInterrupt
  | SystemExit.

(** [except Exception] *)
Definition is_Exception (e : exn) : bool :=
  match e with
  | KeyboardInterrupt | SystemExit => false
  | _ => true
  end.

(** [except ImportError] *)
Definition is_ImportError (e : exn) : bool :=
  match e with ImportError => true | _ => false end.

(** [except (IOError, KeyError)] *)
Definition is_IOError_or_KeyError (e : exn) : bool :=
  match e with IOError | KeyError _ => true | _ => false end.

(** [except RuntimeError] *)
Definition is_RuntimeError (e : exn) : bool :=
  match e with RuntimeError => true | _ => false end.

Inductive result (A : Type) : Type :=
  | Ok (a : A)
  | Raise (e : exn).
Arguments Ok {A} a.
Arguments Raise {A} e.

(** ** Python values held by the registry *)

(** What [inspect.getargspec] reports of a function: the names of its
    positional parameters, and the names of [*args] and [**kwargs] when it
    has them. *)
Record wrapper : Type := Wrapper {
  w_name : string;
  w_args : list string;
  w_varargs : option string;
  w_keywords : option string
}.

(** A Qt widget with its chain of parents. *)
Inductive window : Type :=
  | TopWindow (objectName : string)
  | ChildWindow (objectName : string) (parent : window).

Inductive value : Type :=
  | VNone
  | VBool (b : bool)
  | VStr (s : string)
  | VServer (id : nat)          (* reference to an [ipc.server.Server] *)
  | VProxy (id : nat)           (* reference to an [ipc.server.Proxy] *)
  | VWrapper (w : wrapper)      (* the closure [_wrapper] around [w] *)
  | VWindow (win : window).

(** Python truth value, as tested by [if x:] and [not x]. *)
Definition truthy (v : value) : bool :=
  match v with
  | VNone => false
  | VBool b => b
  | VStr s => negb (String.eqb s EmptyString)
  | VServer _ | VProxy _ | VWrapper _ | VWindow _ => true
  end.

(** ** Collaborators *)

(** Callbacks [host.py] hands to [pyblish.api]; [on_shown] is a closure
    created afresh by every [show()], told apart by the splash it closes. *)
Inductive handler : Type :=
  | _toggle_instance
  | _toggle_plugin
  | on_shown (splash : nat).

Global Instance handler_eq_dec : EqDecision handler.
Proof. solve_decision. Defined.

(** The [settings] module: two labels and their default sentinels. *)
Record Settings : Type := mkSettings {
  ContextLabel : string;
  WindowTitle : string;
  ContextLabelDefault : string;
  WindowTitleDefault : string
}.

(** An [ipc.server.Server]: the attributes [host.py] reads and writes. *)
Record Server : Type := mkServer {
  s_modal : bool;
  s_targets : list string
}.

(** Modelled from the spec: [ipc.server.Proxy] is not part of [host.py].
    A proxy is bound to a server and keeps its own view of the server's
    modality, which [update(server)] refreshes. *)
Record Proxy : Type := mkProxy {
  p_server : nat;
  p_modal : bool;
  p_headless : bool
}.

(** Effects that leave the process. *)
Inductive event : Type :=
  | EStdout (s : string)                (* sys.stdout.write / print *)
  | EPrintExc (e : exn)                 (* traceback.print_exc() *)
  | EQuitHook                           (* app.aboutToQuit.connect(_on_application_quit) *)
  | ESplashShow (splash : nat)
  | ESplashClose (splash : nat)
  | EService                            (* ipc.service.Service() *)
  | EServerNew (id : nat)               (* ipc.server.Server(...) *)
  | EProxyNew (id : nat)                (* ipc.server.Proxy(...) *)
  | EProxyUpdate (proxy server : nat)
  | EProxyShow (proxy : nat) (cfg : Settings)
  | EProxyPublish (proxy : nat)
  | EProxyValidate (proxy : nat)
  | EProxyKill (proxy : nat)
  | EPopenKill (server : nat)           (* server.popen.kill() *)
  | EListen (server : nat).             (* server.listen() *)

(** ** The world *)

Record World : Type := mkWorld {
  _state : gmap string value;            (* pyblish_qml._state *)
  callbacks : gmap string (list handler);(* pyblish.api's callback registry *)
  settings : Settings;
  environ : gmap string string;          (* os.environ *)
  servers : gmap nat Server;
  proxies : gmap nat Proxy;
  next_id : nat;                         (* next fresh object identity *)
  trace : list event
}.

(** Modelled from the spec: [_state] is created in the package's
    [__init__], outside [host.py]; at process start all its fields are
    absent. *)
Definition initial_world (cfg : Settings) (env : gmap string string) : World :=
  {| _state := ∅; callbacks := ∅; settings := cfg; environ := env;
     servers := ∅; proxies := ∅; next_id := 0; trace := [] |}.

Definition with_state (f : gmap string value → gmap string value) (w : World) : World :=
  {| _state := f (_state w); callbacks := callbacks w; settings := settings w;
     environ := environ w; servers := servers w; proxies := proxies w;
     next_id := next_id w; trace := trace w |}.

Definition with_callbacks (c : gmap string (list handler)) (w : World) : World :=
  {| _state := _state w; callbacks := c; settings := settings w;
     environ := environ w; servers := servers w; proxies := proxies w;
     next_id := next_id w; trace := trace w |}.

Definition with_settings (cfg : Settings) (w : World) : World :=
  {| _state := _state w; callbacks := callbacks w; settings := cfg;
     environ := environ w; servers := servers w; proxies := proxies w;
     next_id := next_id w; trace := trace w |}.

Definition with_environ (env : gmap string string) (w : World) : World :=
  {| _state := _state w; callbacks := callbacks w; settings := settings w;
     environ := env; servers := servers w; proxies := proxies w;
     next_id := next_id w; trace := trace w |}.

Definition with_servers (s : gmap nat Server) (w : World) : World :=
  {| _state := _state w; callbacks := callbacks w; settings := settings w;
     environ := environ w; servers := s; proxies := proxies w;
     next_id := next_id w; trace := trace w |}.

Definition with_proxies (p : gmap nat Proxy) (w : World) : World :=
  {| _state := _state w; callbacks := callbacks w; settings := settings w;
     environ := environ w; servers := servers w; proxies := p;
     next_id := next_id w; trace := trace w |}.

Definition with_next_id (n : nat) (w : World) : World :=
  {| _state := _state w; callbacks := callbacks w; settings := settings w;
     environ := environ w; servers := servers w; proxies := proxies w;
     next_id := n; trace := trace w |}.

Definition log (e : event) (w : World) : World :=
  {| _state := _state w; callbacks := callbacks w; settings := settings w;
     environ := environ w; servers := servers w; proxies := proxies w;
     next_id := next_id w; trace := trace w ++ [e] |}.

(** ** The monad: state passing with exceptions *)

(** A raised exception leaves in place whatever was already written. *)
Definition M (A : Type) : Type := World → World * result A.

Definition ret {A} (a : A) : M A := λ w, (w, Ok a).

Definition raise {A} (e : exn) : M A := λ w, (w, Raise e).

Definition bind {A B} (m : M A) (k : A → M B) : M B :=
  λ w, match m w with
       | (w', Ok a) => k a w'
       | (w', Raise e) => (w', Raise e)
       end.

(** [try: m  except <classes c>: h] *)
Definition try_except {A} (m : M A) (c : exn → bool) (h : exn → M A) : M A :=
  λ w, match m w with
       | (w', Ok a) => (w', Ok a)
       | (w', Raise e) => if c e then h e w' else (w', Raise e)
       end.

Definition modify (f : World → World) : M unit := λ w, (f w, Ok tt).

Definition gets {A} (f : World → A) : M A := λ w, (w, Ok (f w)).

Declare Scope py_scope.
Delimit Scope py_scope with py.
Notation "x <- m ;; k" := (bind m (λ x, k))
  (at level 100, m at next level, right associativity) : py_scope.
Notation "m ;;; k" := (bind m (λ _, k))
  (at level 100, right associativity) : py_scope.
Local Open Scope py_scope.

Definition emit (e : event) : M unit := modify (log e).

(** [_state.get(k)] *)
Definition state_get (k : string) : M value :=
  gets (λ w, default VNone (_state w !! k)).

(** [_state[k]] *)
Definition state_getitem (k : string) : M value :=
  λ w, match _state w !! k with
       | Some v => (w, Ok v)
       | None => (w, Raise (KeyError k))
       end.

(** [_state[k] = v] *)
Definition state_setitem (k : string) (v : value) : M unit :=
  modify (with_state (insert k v)).

(** [_state.pop(k)] *)
Definition state_pop (k : string) : M value :=
  λ w, match _state w !! k with
       | Some v => (with_state (delete k) w, Ok v)
       | None => (w, Raise (KeyError k))
       end.

(** A fresh object identity. *)
Definition fresh : M nat :=
  λ w, (with_next_id (S (next_id w)) w, Ok (next_id w)).

(** ** The host process: what the adapters probe *)

(** [QtWidgets.QApplication.instance()] *)
Inductive qapp : Type :=
  | NoApp                                   (* None *)
  | CoreApp                                 (* no [activeWindow] attribute *)
  | GuiApp (activeWindow : option window).

Record Host : Type := mkHost {
  modules : list string;          (* what [import] finds *)
  maya_version : string;          (* cmds.about(version=True) *)
  rawArgs : list string;          (* nuke.rawArgs *)
  app : qapp;
  topLevelWidgets : list window;  (* QtWidgets.QApplication.topLevelWidgets() *)
  pathsep : ascii                 (* os.pathsep *)
}.

(** Outcomes of the calls that leave [host.py], for one top-level call. *)
Record Oracle : Type := mkOracle {
  o_update : result unit;        (* proxy.update(server) *)
  o_show : result unit;          (* proxy.show(...) on the registered proxy *)
  o_publish : result unit;       (* proxy.publish() *)
  o_validate : result unit;      (* proxy.validate() *)
  o_kill : result unit;          (* proxy.kill() *)
  o_popen_kill : result unit;    (* server.popen.kill() *)
  o_service : result unit;       (* ipc.service.Service() *)
  o_server : result unit;        (* ipc.server.Server(...) *)
  o_proxy : result unit;         (* ipc.server.Proxy(...) *)
  o_show_new : result unit;      (* proxy.show(...) on the new proxy *)
  o_listen : result unit;        (* server.listen() *)
  o_splash_closed : bool         (* the splash is gone: close() raises RuntimeError *)
}.

(** An external call: raise what the oracle says, or leave an event. *)
Definition external (r : result unit) (e : event) : M unit :=
  match r with
  | Ok _ => emit e
  | Raise x => raise x
  end.

(** ** Dispatch wrapper (lines 15-51) *)

Definition any (l : list bool) : bool := existsb id l.

(** The closure [_wrapper]; [call] is [wrapper(func, *args, **kwargs)]. *)
Definition _wrapper (o : Oracle) (call : M value) : M value :=
  try_except call is_Exception (λ e,
    proxy <- state_getitem "currentProxy";;
    match proxy with
    | VProxy p => external (o_kill o) (EProxyKill p)
    | _ => raise AttributeError
    end;;;
    emit (EPrintExc e);;;
    raise e).

Definition register_dispatch_wrapper (w : wrapper) : M unit :=
  if any [negb (Nat.eqb (List.length (w_args w)) 1);
          bool_decide (w_varargs w = None);
          bool_decide (w_keywords w = None)]
  then raise (TypeError "Wrapper signature mismatch")
  else state_setitem "dispatchWrapper" (VWrapper w).

Definition deregister_dispatch_wrapper : M unit :=
  state_pop "dispatchWrapper";;; ret tt.

Definition dispatch_wrapper : M value := state_get "dispatchWrapper".

Definition current_server : M value := state_get "currentServer".

(** ** Callback bridge (lines 197-214) *)

Fixpoint remove_first (x : handler) (l : list handler) : option (list handler) :=
  match l with
  | [] => None
  | y :: r => if decide (y = x) then Some r
              else cons y <$> remove_first x r
  end.

(** Modelled from the spec: the pipeline callback registry of section 6
    ([pyblish.api], a separate package).  It keeps one list of handlers per
    name; registering appends, deregistering removes one registration and
    raises when there is none to remove. *)
Definition register_callback (name : string) (f : handler) : M unit :=
  modify (λ w, with_callbacks
                 (<[name := default [] (callbacks w !! name) ++ [f]]> (callbacks w)) w).

Definition deregister_callback (name : string) (f : handler) : M unit :=
  λ w, match callbacks w !! name with
       | None => (w, Raise (KeyError name))
       | Some l =>
           match remove_first f l with
           | None => (w, Raise ValueError)
           | Some l' => (with_callbacks (<[name := l']> (callbacks w)) w, Ok tt)
           end
       end.

Definition install_callbacks : M unit :=
  register_callback "instanceToggled" _toggle_instance;;;
  register_callback "pluginToggled" _toggle_plugin.

Definition uninstall_callbacks : M unit :=
  deregister_callback "instanceToggled" _toggle_instance;;;
  deregister_callback "pluginToggled" _toggle_plugin.

(** How often [f] is registered under [name]. *)
Definition registrations (name : string) (f : handler) (w : World) : nat :=
  List.length (filter (λ g, g = f) (default [] (callbacks w !! name))).

(** ** Registered paths (lines 217-244) *)

Definition register_python_executable (isfile : bool) (path : string) : M unit :=
  if isfile then state_setitem "pythonExecutable" (VStr path)
  else raise (AssertionError "Must be a file, such as python.exe").

Definition registered_python_executable : M value :=
  state_get "pythonExecutable".

Definition register_pyqt5 (path : string) : M unit :=
  state_setitem "pyqt5" (VStr path).

(** ** Strings, as [_remove_googleapiclient] uses them *)

Definition LF : string := String (ascii_of_nat 10) EmptyString.

(** [s.split(sep)] for a one-character separator *)
Fixpoint split (sep : ascii) (s : string) : list string :=
  match s with
  | EmptyString => [EmptyString]
  | String c s' =>
      if Ascii.eqb c sep then EmptyString :: split sep s'
      else match split sep s' with
           | x :: r => String c x :: r
           | [] => [String c EmptyString]
           end
  end.

(** [sep.join(l)] *)
Fixpoint join (sep : ascii) (l : list string) : string :=
  match l with
  | [] => EmptyString
  | [x] => x
  | x :: r => (x ++ String sep (join sep r))%string
  end.

(** [k in s] on strings *)
Fixpoint contains (k s : string) : bool :=
  String.prefix k s ||
  match s with
  | EmptyString => false
  | String _ s' => contains k s'
  end.

(** ** Host adapters (lines 79-87 and 269-468) *)

Definition has_activeWindow (a : qapp) : bool :=
  match a with GuiApp _ => true | _ => false end.

Definition _is_headless (h : Host) : bool :=
  negb (has_activeWindow (app h)) ||
  negb (match app h with GuiApp (Some _) => true | _ => false end).

(** [x in l] on lists of strings *)
Definition mem (x : string) (l : list string) : bool := bool_decide (x ∈ l).

(** [import name]: a miss is an [ImportError]. *)
Definition import (h : Host) (name : string) : M unit :=
  if mem name (modules h) then ret tt else raise ImportError.

(** [app.aboutToQuit.connect(_on_application_quit)] *)
Definition connect_quit (h : Host) : M unit :=
  match app h with
  | NoApp => raise AttributeError
  | _ => emit EQuitHook
  end.

Fixpoint top_window (win : window) : window :=
  match win with
  | TopWindow _ => win
  | ChildWindow _ parent => top_window parent
  end.

Definition _acquire_host_main_window (h : Host) : M unit :=
  match app h with
  | GuiApp (Some win) => state_setitem "vesselParent" (VWindow (top_window win))
  | _ => raise AttributeError
  end.

Definition _remove_googleapiclient (h : Host) : M unit :=
  let keyword := "googleapiclient" in
  pythonpath <- gets (λ w, environ w !! "PYTHONPATH");;
  match pythonpath with
  | None => raise (KeyError "PYTHONPATH")
  | Some s =>
      let python_paths := split (pathsep h) s in
      let paths := filter (λ path, negb (contains keyword path)) python_paths in
      modify (λ w, with_environ (<["PYTHONPATH" := join (pathsep h) paths]> (environ w)) w)
  end.

Definition objectName (win : window) : string :=
  match win with TopWindow n | ChildWindow n _ => n end.

(** [{widget.objectName(): widget for widget in widgets}[name]] *)
Definition widget_named (name : string) (widgets : list window) : M window :=
  match fold_left (λ acc win, if String.eqb (objectName win) name then Some win else acc)
                  widgets None with
  | Some win => ret win
  | None => raise (KeyError name)
  end.

(** The closure [threaded_wrapper] of the adapter [owner]; all six have the
    signature [(func, *args, **kwargs)]. *)
Definition threaded_wrapper (owner : string) : wrapper :=
  Wrapper (owner ++ ".threaded_wrapper")%string ["func"] (Some "args") (Some "kwargs").

(** The two [if settings.X == settings.XDefault] assignments that end
    every adapter. *)
Definition set_labels (label : string) : M unit :=
  modify (λ w,
    let s := settings w in
    let s1 := if String.eqb (ContextLabel s) (ContextLabelDefault s)
              then mkSettings label (WindowTitle s)
                     (ContextLabelDefault s) (WindowTitleDefault s)
              else s in
    let s2 := if String.eqb (WindowTitle s1) (WindowTitleDefault s1)
              then mkSettings (ContextLabel s1) ("Pyblish (" ++ label ++ ")")%string
                     (ContextLabelDefault s1) (WindowTitleDefault s1)
              else s1 in
    with_settings s2 w).

Definition _install_maya (h : Host) : M unit :=
  import h "maya";;;
  (if String.eqb (maya_version h) "2018" then _remove_googleapiclient h else ret tt);;;
  emit (EStdout ("Setting up Pyblish QML in Maya" ++ LF)%string);;;
  register_dispatch_wrapper (threaded_wrapper "_install_maya");;;
  (if negb (_is_headless h) then
     connect_quit h;;;
     win <- widget_named "MayaWindow" (topLevelWidgets h);;
     state_setitem "vesselParent" (VWindow win)
   else ret tt);;;
  set_labels "Maya".

Definition _install_houdini (h : Host) : M unit :=
  import h "hdefereval";;;
  emit (EStdout ("Setting up Pyblish QML in Houdini" ++ LF)%string);;;
  register_dispatch_wrapper (threaded_wrapper "_install_houdini");;;
  connect_quit h;;;
  _acquire_host_main_window h;;;
  set_labels "Houdini".

Definition _install_nuke (h : Host) : M unit :=
  import h "nuke";;;
  let not_nuke_launch :=
    mem "--hiero" (rawArgs h) || mem "--studio" (rawArgs h) ||
    mem "--nukeassist" (rawArgs h) in
  (if not_nuke_launch then raise ImportError else ret tt);;;
  emit (EStdout ("Setting up Pyblish QML in Nuke" ++ LF)%string);;;
  register_dispatch_wrapper (threaded_wrapper "_install_nuke");;;
  connect_quit h;;;
  _acquire_host_main_window h;;;
  set_labels "Nuke".

Definition _install_nukeassist (h : Host) : M unit :=
  import h "nuke";;;
  (if negb (mem "--nukeassist" (rawArgs h)) then raise ImportError else ret tt);;;
  emit (EStdout ("Setting up Pyblish QML in NukeAssist" ++ LF)%string);;;
  register_dispatch_wrapper (threaded_wrapper "_install_nukeassist");;;
  connect_quit h;;;
  _acquire_host_main_window h;;;
  set_labels "NukeAssist".

Definition _install_hiero (h : Host) : M unit :=
  import h "hiero";;;
  import h "nuke";;;
  (if negb (mem "--hiero" (rawArgs h)) then raise ImportError else ret tt);;;
  emit (EStdout ("Setting up Pyblish QML in Hiero" ++ LF)%string);;;
  register_dispatch_wrapper (threaded_wrapper "_install_hiero");;;
  connect_quit h;;;
  _acquire_host_main_window h;;;
  set_labels "Hiero".

Definition _install_nukestudio (h : Host) : M unit :=
  import h "nuke";;;
  (if negb (mem "--studio" (rawArgs h)) then raise ImportError else ret tt);;;
  emit (EStdout ("Setting up Pyblish QML in NukeStudio" ++ LF)%string);;;
  register_dispatch_wrapper (threaded_wrapper "_install_nukestudio");;;
  connect_quit h;;;
  _acquire_host_main_window h;;;
  set_labels "NukeStudio".

(** The [for ... try ... except ImportError: pass ... else: break] loop. *)
Fixpoint install_chain (installers : list (M unit)) : M unit :=
  match installers with
  | [] => ret tt
  | install :: rest =>
      installed <- try_except (install;;; ret true) is_ImportError (λ _, ret false);;
      if installed : bool then ret tt else install_chain rest
  end.

Definition adapters (h : Host) : list (M unit) :=
  [_install_maya h; _install_houdini h; _install_nuke h;
   _install_nukeassist h; _install_hiero h; _install_nukestudio h].

Definition install_host (h : Host) : M unit := install_chain (adapters h).

(** [_on_application_quit], the hook the adapters connect. *)
Definition _on_application_quit (o : Oracle) : M unit :=
  try_except
    (server <- state_getitem "currentServer";;
     match server with
     | VServer s => external (o_popen_kill o) (EPopenKill s)
     | _ => raise AttributeError
     end)
    (λ e, match e with KeyError _ | OSError => true | _ => false end)
    (λ _, ret tt).

(** ** Install and uninstall (lines 54-76) *)

Definition uninstall : M unit :=
  uninstall_callbacks;;;
  emit (EStdout ("Pyblish QML shutdown successful." ++ LF)%string).

Definition install (h : Host) : M unit :=
  installed <- state_get "installed";;
  (if truthy installed then
     emit (EStdout ("Already installed, uninstalling.." ++ LF)%string);;;
     uninstall
   else ret tt);;;
  install_callbacks;;;
  install_host h;;;
  state_setitem "installed" (VBool true).

(** ** The proxy and the server, as [host.py] calls them *)

(** [server.modal = modal].  Only [show()] stores under ["currentServer"],
    and it stores a server; any other entry has no [modal] to assign. *)
Definition set_modal (server : value) (b : bool) : M unit :=
  match server with
  | VServer s =>
      modify (λ w, with_servers (alter (λ srv, mkServer b (s_targets srv)) s (servers w)) w)
  | _ => raise AttributeError
  end.

(** Modelled from the spec: [proxy.update(server)] refreshes the proxy's
    view of the server's modality. *)
Definition proxy_update (o : Oracle) (proxy server : value) : M unit :=
  match proxy, server with
  | VProxy p, VServer s =>
      external (o_update o) (EProxyUpdate p s);;;
      modify (λ w, match servers w !! s with
                   | Some srv =>
                       with_proxies
                         (alter (λ px, mkProxy (p_server px) (s_modal srv) (p_headless px))
                                p (proxies w)) w
                   | None => w
                   end)
  | _, _ => raise AttributeError
  end.

(** A method call [proxy.m()] whose outcome the oracle gives. *)
Definition proxy_call (r : result unit) (e : nat → event) (proxy : value) : M unit :=
  match proxy with
  | VProxy p => external r (e p)
  | _ => raise AttributeError
  end.

(** ** show (lines 90-164) *)

(** Of the parameters of [show(parent, targets, modal)], [parent] is never
    used; [modal] is [None] or a boolean. *)

(** [bool(os.environ.get("PYBLISH_QML_MODAL", False))] *)
Definition modal_from_environment : M bool :=
  v <- gets (λ w, environ w !! "PYBLISH_QML_MODAL");;
  ret (match v with
       | Some s => negb (String.eqb s EmptyString)
       | None => false
       end).

(** Lines 107-119: the branch taken when a server is registered.  The
    result is the server when the function returns from inside the [try],
    and [None] when control falls out of the [except] clause. *)
Definition show_existing (o : Oracle) (modal : bool) : M (option value) :=
  server <- state_getitem "currentServer";;
  set_modal server modal;;;
  try_except
    (proxy <- state_getitem "currentProxy";;
     proxy_update o proxy server;;;
     cfg <- gets settings;;
     proxy_call (o_show o) (λ p, EProxyShow p cfg) proxy;;;
     ret (Some server))
    is_IOError_or_KeyError
    (λ _, state_pop "currentServer";;; ret None).

(** The closure [on_shown] of the non-headless branch (lines 128-136). *)
Definition call_on_shown (o : Oracle) (splash : nat) : M unit :=
  try_except
    (if o_splash_closed o then raise RuntimeError else emit (ESplashClose splash))
    is_RuntimeError (λ _, ret tt);;;
  deregister_callback "pyblishQmlShown" (on_shown splash).

(** Lines 121-164: starting a new session. *)
Definition show_new (h : Host) (o : Oracle) (targets : list string) (modal : bool)
  : M value :=
  let is_headless := _is_headless h in
  splash <- (if negb is_headless then
               splash <- fresh;;
               emit (ESplashShow splash);;;
               register_callback "pyblishQmlShown" (on_shown splash);;;
               ret (Some splash)
             else ret None);;
  let shown := match splash with
               | Some splash => call_on_shown o splash
               | None => ret tt
               end in
  server <- try_except
              (external (o_service o) EService;;;
               match o_server o with
               | Raise e => raise e
               | Ok _ =>
                   s <- fresh;;
                   modify (λ w, with_servers (<[s := mkServer modal targets]> (servers w)) w);;;
                   emit (EServerNew s);;;
                   ret (Some s)
               end)
              is_Exception
              (λ e, emit (EPrintExc e);;; ret None);;
  match server with
  | None => shown;;; ret VNone
  | Some s =>
      proxy <- match o_proxy o with
               | Raise e => raise e
               | Ok _ =>
                   p <- fresh;;
                   modify (λ w, with_proxies (<[p := mkProxy s modal is_headless]> (proxies w)) w);;;
                   emit (EProxyNew p);;;
                   ret (VProxy p)
               end;;
      cfg <- gets settings;;
      proxy_call (o_show_new o) (λ p, EProxyShow p cfg) proxy;;;
      state_setitem "currentServer" (VServer s);;;
      state_setitem "currentProxy" proxy;;;
      emit (EStdout ("Success. QML server available as pyblish_qml.api.current_server()" ++ LF)%string);;;
      external (o_listen o) (EListen s);;;
      ret (VServer s)
  end.

(** Lines 102-104: [if not _state.get("installed"): install()] *)
Definition auto_install (h : Host) : M unit :=
  installed <- state_get "installed";;
  if negb (truthy installed) then install h else ret tt.

(** Lines 106-164: reuse the registered session or start a new one. *)
Definition show_session (h : Host) (o : Oracle) (targets : list string) (modal : bool)
  : M value :=
  current <- state_get "currentServer";;
  existing <- (if truthy current then show_existing o modal else ret None);;
  match existing with
  | Some server => ret server
  | None => show_new h o targets modal
  end.

Definition show (h : Host) (o : Oracle) (targets : list string) (modal : option bool)
  : M value :=
  modal <- match modal with
           | None => modal_from_environment
           | Some b => ret b
           end;;
  auto_install h;;;
  show_session h o targets modal.

(** ** publish and validate (lines 167-194) *)

Definition publish (o : Oracle) : M unit :=
  current <- state_get "currentServer";;
  if truthy current then
    server <- state_getitem "currentServer";;
    try_except
      (proxy <- state_getitem "currentProxy";;
       proxy_update o proxy server;;;
       proxy_call (o_publish o) EProxyPublish proxy)
      is_IOError_or_KeyError
      (λ _, state_pop "currentServer";;; ret tt)
  else ret tt.

Definition validate (o : Oracle) : M unit :=
  current <- state_get "currentServer";;
  if truthy current then
    server <- state_getitem "currentServer";;
    try_except
      (proxy <- state_getitem "currentProxy";;
       proxy_update o proxy server;;;
       proxy_call (o_validate o) EProxyValidate proxy)
      is_IOError_or_KeyError
      (λ _, state_pop "currentServer";;; ret tt)
  else ret tt.

(** ** Concrete data for the examples *)

Definition default_settings : Settings :=
  mkSettings "Context" "Pyblish" "Context" "Pyblish".

Definition all_ok : Oracle :=
  mkOracle (Ok tt) (Ok tt) (Ok tt) (Ok tt) (Ok tt) (Ok tt)
           (Ok tt) (Ok tt) (Ok tt) (Ok tt) (Ok tt) false.

(** A plain Python interpreter: no host module, no Qt application. *)
Definition standalone : Host :=
  mkHost [] EmptyString [] NoApp [] ":".

(** Nuke with its main window. *)
Definition nuke_host : Host :=
  mkHost ["nuke"] EmptyString ["nuke"; "-q"]
         (GuiApp (Some (ChildWindow "viewer" (TopWindow "NukeMain")))) [] ":".

Definition w0 : World := initial_world default_settings ∅.

(** ** Vocabulary of the specification *)

(** The closed set of host adapters, in the order [install_host] tries
    them. *)
Inductive adapter : Type :=
  | Maya | Houdini | Nuke | NukeAssist | Hiero | NukeStudio.

Definition priority : list adapter :=
  [Maya; Houdini; Nuke; NukeAssist; Hiero; NukeStudio].

Definition installer (k : adapter) (h : Host) : M unit :=
  match k with
  | Maya => _install_maya h
  | Houdini => _install_houdini h
  | Nuke => _install_nuke h
  | NukeAssist => _install_nukeassist h
  | Hiero => _install_hiero h
  | NukeStudio => _install_nukestudio h
  end.

Definition owner (k : adapter) : string :=
  match k with
  | Maya => "_install_maya"
  | Houdini => "_install_houdini"
  | Nuke => "_install_nuke"
  | NukeAssist => "_install_nukeassist"
  | Hiero => "_install_hiero"
  | NukeStudio => "_install_nukestudio"
  end.

(** The host an adapter looks for: its probe modules import and the launch
    flags are those of its mode. *)
Definition detected (k : adapter) (h : Host) : bool :=
  match k with
  | Maya => mem "maya" (modules h)
  | Houdini => mem "hdefereval" (modules h)
  | Nuke => mem "nuke" (modules h)
            && negb (mem "--hiero" (rawArgs h))
            && negb (mem "--studio" (rawArgs h))
            && negb (mem "--nukeassist" (rawArgs h))
  | NukeAssist => mem "nuke" (modules h) && mem "--nukeassist" (rawArgs h)
  | Hiero => mem "hiero" (modules h) && mem "nuke" (modules h)
             && mem "--hiero" (rawArgs h)
  | NukeStudio => mem "nuke" (modules h) && mem "--studio" (rawArgs h)
  end.

(** A wrapper of shape [(func, *args, **kwargs)]: one positional parameter
    and both variadic ones. *)
Definition conforming (w : wrapper) : Prop :=
  ∃ func args kwargs,
    w_args w = [func] ∧ w_varargs w = Some args ∧ w_keywords w = Some kwargs.

(** Whether a key of the registry holds something true. *)
Definition registered (k : string) (w : World) : bool :=
  truthy (default VNone (_state w !! k)).

(** The modality [show()] works with. *)
Definition resolve_modal (modal : option bool) (w : World) : bool :=
  match modal with
  | Some b => b
  | None => match environ w !! "PYBLISH_QML_MODAL" with
            | Some s => negb (String.eqb s EmptyString)
            | None => false
            end
  end.

(** Delegating to the registered proxy ends in an I/O failure or a
    missing key: the proxy entry is missing, or [update], or else the
    command that follows it, raises one of the two. *)
Definition stale (w : World) (update command : result unit) : Prop :=
  match _state w !! "currentProxy" with
  | None => True
  | Some (VProxy _) =>
      match update, command with
      | Raise e, _ => is_IOError_or_KeyError e = true
      | Ok _, Raise e => is_IOError_or_KeyError e = true
      | Ok _, Ok _ => False
      end
  | Some _ => False
  end.

(** The two registry invariants compared below. *)
Definition both_or_neither (w : World) : Prop :=
  is_Some (_state w !! "currentServer") ↔ is_Some (_state w !! "currentProxy").

Definition server_implies_proxy (w : World) : Prop :=
  is_Some (_state w !! "currentServer") → is_Some (_state w !! "currentProxy").

(** The entry points of [host.py] that write to the process-wide state,
    each with the environment it runs in. *)
Inductive operation : Type :=
  | OpInstall (h : Host)
  | OpUninstall
  | OpShow (h : Host) (o : Oracle) (targets : list string) (modal : option bool)
  | OpPublish (o : Oracle)
  | OpValidate (o : Oracle)
  | OpRegisterDispatchWrapper (w : wrapper)
  | OpDeregisterDispatchWrapper
  | OpRegisterPythonExecutable (isfile : bool) (path : string)
  | OpRegisterPyqt5 (path : string).

(** The world a call leaves behind, whether it returned or raised. *)
Definition after {A} (m : M A) (w : World) : World := fst (m w).

Definition run_operation (w : World) (x : operation) : World :=
  match x with
  | OpInstall h => after (install h) w
  | OpUninstall => after uninstall w
  | OpShow h o targets modal => after (show h o targets modal) w
  | OpPublish o => after (publish o) w
  | OpValidate o => after (validate o) w
  | OpRegisterDispatchWrapper wr => after (register_dispatch_wrapper wr) w
  | OpDeregisterDispatchWrapper => after deregister_dispatch_wrapper w
  | OpRegisterPythonExecutable isfile path =>
      after (register_python_executable isfile path) w
  | OpRegisterPyqt5 path => after (register_pyqt5 path) w
  end.

Definition run (ops : list operation) (w : World) : World :=
  fold_left run_operation ops w.

(** Callbacks and the [installed] flag agree: a fresh process, or one
    where [install()] went through. *)
Definition coherent (w : World) : Prop :=
  (registered "installed" w = false
   ∧ registrations "instanceToggled" _toggle_instance w = 0
   ∧ registrations "pluginToggled" _toggle_plugin w = 0)
  ∨ (registered "installed" w = true
     ∧ registrations "instanceToggled" _toggle_instance w = 1
     ∧ registrations "pluginToggled" _toggle_plugin w = 1).

(** A registered server presupposes that [install()] went through. *)
Definition server_implies_installed (w : World) : Prop :=
  is_Some (_state w !! "currentServer") → registered "installed" w = true.

(** The trace only grows: [w] continues [t]. *)
Definition extends (t : list event) (w : World) : Prop :=
  ∃ rest, trace w = t ++ rest.

(** [install()] past its guard: lines 67-70. *)
Definition install_rest (h : Host) : M unit :=
  install_callbacks;;;
  install_host h;;;
  state_setitem "installed" (VBool true).

(** The two lines [install()] and [uninstall()] write. *)
Definition already_installed : event :=
  EStdout ("Already installed, uninstalling.." ++ LF)%string.

Definition shutdown_successful : event :=
  EStdout ("Pyblish QML shutdown successful." ++ LF)%string.

(** Constructing the server fails: [Service()] raises, or [Server(...)]
    does. *)
Definition construction_fails (o : Oracle) (e : exn) : Prop :=
  o_service o = Raise e ∨ (o_service o = Ok tt ∧ o_server o = Raise e).

(** What a [show()] that cannot construct its server does to the outside;
    [n] is the identity of the splash. *)
Definition failed_start_trace (h : Host) (o : Oracle) (n : nat) (e : exn) : list event :=
  (if _is_headless h then [] else [ESplashShow n])
  ++ match o_service o with Ok _ => [EService] | Raise _ => [] end
  ++ [EPrintExc e]
  ++ (if _is_headless h || o_splash_closed o then [] else [ESplashClose n]).

(** ** More concrete data *)

(** Houdini's batch interpreter: the probe module imports, but there is
    no Qt application. *)
Definition hython : Host :=
  mkHost ["hdefereval"] EmptyString [] NoApp [] ":".

(** Every call to the registered proxy fails with [IOError]. *)
Definition gui_gone : Oracle :=
  mkOracle (Raise IOError) (Raise IOError) (Raise IOError) (Raise IOError)
           (Raise OSError) (Raise OSError)
           (Ok tt) (Ok tt) (Ok tt) (Ok tt) (Ok tt) false.

(** The GUI process cannot be spawned. *)
Definition no_gui : Oracle :=
  mkOracle (Ok tt) (Ok tt) (Ok tt) (Ok tt) (Ok tt) (Ok tt)
           (Ok tt) (Raise OSError) (Ok tt) (Ok tt) (Ok tt) false.

(** The world after a first, successful [show()]. *)
Definition w_running : World := after (show standalone all_ok [] None) w0.
Definition w_running_nuke : World := after (show nuke_host all_ok [] (Some true)) w0.

(** A wrapper is registered, no session was ever started. *)
Definition w_wrapper_only : World :=
  after (register_dispatch_wrapper (threaded_wrapper "_install_maya")) w0.

Definition good_wrapper : wrapper :=
  Wrapper "threaded" ["func"] (Some "args") (Some "kwargs").

Definition bad_wrapper : wrapper :=
  Wrapper "two_positional" ["func"; "extra"] (Some "args") (Some "kwargs").

(** ** The splash (lines 471-520) *)

(** The two attributes [animate] works on: [self.count] and the text of
    [self.label]. *)
Record Splash : Type := mkSplash {
  sp_count : nat;
  sp_label : string
}.

(** ["." * n] *)
Fixpoint dots (n : nat) : string :=
  match n with
  | 0 => EmptyString
  | S n => String "." (dots n)
  end.

Definition animate (sp : Splash) : Splash :=
  mkSplash (Nat.modulo (sp_count sp + 1) 4) ("loading" ++ dots (sp_count sp))%string.

(** [__init__]: [self.count = 0], an empty label, then [self.animate()]. *)
Definition Splash_init : Splash := animate (mkSplash 0 EmptyString).

(** The splash after [n] timeouts of its timer. *)
Definition ticks (n : nat) : Splash := Nat.iter n animate Splash_init.

(** ** More vocabulary *)

(** [a] is [win] or one of its parents. *)
Fixpoint ancestor_or_self (a win : window) : Prop :=
  a = win ∨ match win with
            | TopWindow _ => False
            | ChildWindow _ parent => ancestor_or_self a parent
            end.

Definition is_top (win : window) : Prop :=
  match win with TopWindow _ => True | ChildWindow _ _ => False end.

(** The label an adapter gives its host. *)
Definition label_of (k : adapter) : string :=
  match k with
  | Maya => "Maya"
  | Houdini => "Houdini"
  | Nuke => "Nuke"
  | NukeAssist => "NukeAssist"
  | Hiero => "Hiero"
  | NukeStudio => "NukeStudio"
  end.

Definition setting_up (k : adapter) : event :=
  EStdout ("Setting up Pyblish QML in " ++ label_of k ++ LF)%string.

(** [sep] occurs in [s]. *)
Fixpoint has_char (sep : ascii) (s : string) : bool :=
  match s with
  | EmptyString => false
  | String c s' => Ascii.eqb c sep || has_char sep s'
  end.

(** The entries of [PYTHONPATH] that name the keyword of
    [_remove_googleapiclient]. *)
Definition names_googleapiclient (path : string) : bool :=
  contains "googleapiclient" path.

(** A session can be started: every constructor and the first [show]
    return. *)
Definition starts (o : Oracle) : Prop :=
  o_service o = Ok tt ∧ o_server o = Ok tt ∧ o_proxy o = Ok tt ∧ o_show_new o = Ok tt.

(** The server exists, the proxy fails: [Proxy(...)] raises, or its first
    [show] does. *)
Definition proxy_fails (o : Oracle) (e : exn) : Prop :=
  o_service o = Ok tt ∧ o_server o = Ok tt
  ∧ (o_proxy o = Raise e ∨ (o_proxy o = Ok tt ∧ o_show_new o = Raise e)).

(** The identity [show()] gives its new server: the splash, if there is
    one, is created first. *)
Definition new_server_id (h : Host) (w : World) : nat :=
  if _is_headless h then next_id w else S (next_id w).

(** Maya 2018 on a machine whose [PYTHONPATH] names MASH's copy of
    googleapiclient. *)
Definition maya2018 : Host :=
  mkHost ["maya"] "2018" [] (GuiApp (Some (TopWindow "MayaWindow")))
         [TopWindow "MayaWindow"; TopWindow "scriptEditor"] ":".

Definition w_maya2018 : World :=
  initial_world default_settings
    {["PYTHONPATH" := "/usr/lib:/maya/MASH/googleapiclient:/home"]}.

(** Houdini with its main window and a floating panel in front. *)
Definition houdini_host : Host :=
  mkHost ["hdefereval"] EmptyString []
         (GuiApp (Some (ChildWindow "panel" (TopWindow "HoudiniMain")))) [] ":".


(** Houdini's adapter has run. *)
Definition w_houdini : World := after (install houdini_host) w0.

(** The proxy answers with an exception that is neither [IOError] nor
    [KeyError]. *)
Definition gui_broken : Oracle :=
  mkOracle (Ok tt) (Raise RuntimeError) (Raise RuntimeError) (Raise RuntimeError)
           (Ok tt) (Ok tt) (Ok tt) (Ok tt) (Ok tt) (Ok tt) (Ok tt) false.

(** The server starts, the proxy cannot be built. *)
Definition no_proxy : Oracle :=
  mkOracle (Ok tt) (Ok tt) (Ok tt) (Ok tt) (Ok tt) (Ok tt)
           (Ok tt) (Ok tt) (Raise IOError) (Ok tt) (Ok tt) false.

(** [m] keeps [P] true of the world, however it ends. *)
Definition preserves {A} (P : World → Prop) (m : M A) : Prop :=
  ∀ w w' r, m w = (w', r) → P w → P w'.

(** * Examples *)

Example state_pop_missing :
  snd (state_pop "currentServer" w0)
  = Raise (KeyError "currentServer").
Proof. reflexivity. Qed.

Example state_set_get :
  snd ((state_setitem "installed" (VBool true);;; state_get "installed")
         w0)
  = Ok (VBool true).
Proof. vm_compute. reflexivity. Qed.

Example split_join :
  join ":" (filter (λ p, negb (contains "googleapiclient" p))
              (split ":" "/usr/lib:/maya/MASH/googleapiclient:/home"))
  = "/usr/lib:/home".
Proof. reflexivity. Qed.

(** Maya and Houdini both importable: Maya, first in the chain, installs
    its wrapper and labels; Houdini's installer does not run. *)
Example maya_before_houdini :
  let h := mkHost ["hdefereval"; "maya"] "2020" [] NoApp [] ":" in
  let w := after (install_host h) w0 in
  snd (install_host h w0) = Ok tt
  ∧ _state w !! "dispatchWrapper" = Some (VWrapper (threaded_wrapper "_install_maya"))
  ∧ ContextLabel (settings w) = "Maya"
  ∧ trace w = [EStdout ("Setting up Pyblish QML in Maya" ++ LF)%string].
Proof. vm_compute. repeat split. Qed.

(** A headless [show(modal=True)]: no splash, and the registered server
    is modal. *)
Example headless_modal_show :
  let w := after (show standalone all_ok [] (Some true)) w0 in
  _state w !! "currentServer" = Some (VServer 0)
  ∧ servers w !! 0 = Some (mkServer true [])
  ∧ Forall (λ e, match e with ESplashShow _ => False | _ => True end) (trace w).
Proof. vm_compute. repeat split; repeat constructor. Qed.

Example register_python_executable_missing_file :
  register_python_executable false "/no/such/python" w0
  = (w0, Raise (AssertionError "Must be a file, such as python.exe")).
Proof. reflexivity. Qed.

Example register_python_executable_file :
  snd ((register_python_executable true "/usr/bin/python";;;
        registered_python_executable) w0)
  = Ok (VStr "/usr/bin/python").
Proof. vm_compute. reflexivity. Qed.

Example deregister_without_wrapper :
  deregister_dispatch_wrapper w0 = (w0, Raise (KeyError "dispatchWrapper")).
Proof. reflexivity. Qed.

Example top_window_walks_parents :
  top_window (ChildWindow "panel" (ChildWindow "dock" (TopWindow "main")))
  = TopWindow "main".
Proof. reflexivity. Qed.

(** * Reasoning about the monad *)

Section Preserves.
Context (P : World → Prop).

Lemma preserves_ret {A} (a : A) : preserves P (ret a).
Proof. intros w w' r [= <- _] ?. done. Qed.

Lemma preserves_raise {A} e : preserves P (@raise A e).
Proof. intros w w' r [= <- _] ?. done. Qed.

Lemma preserves_bind {A B} (m : M A) (k : A → M B) :
  preserves P m → (∀ a, preserves P (k a)) → preserves P (bind m k).
Proof.
  intros Hm Hk w w' r. unfold bind.
  destruct (m w) as [w1 [a|e]] eqn:E; intros H HP.
  - eapply Hk; eauto.
  - injection H as <- _. eauto.
Qed.

Lemma preserves_try {A} (m : M A) c h :
  preserves P m → (∀ e, preserves P (h e)) → preserves P (try_except m c h).
Proof.
  intros Hm Hh w w' r. unfold try_except.
  destruct (m w) as [w1 [a|e]] eqn:E; intros H HP.
  - injection H as <- _. eauto.
  - destruct (c e).
    + eapply Hh; eauto.
    + injection H as <- _. eauto.
Qed.

Lemma preserves_modify f : (∀ w, P w → P (f w)) → preserves P (modify f).
Proof. intros Hf w w' r [= <- _]. apply Hf. Qed.

Lemma preserves_gets {A} (f : World → A) : preserves P (gets f).
Proof. intros w w' r [= <- _] ?. done. Qed.

Lemma preserves_state_get k : preserves P (state_get k).
Proof. apply preserves_gets. Qed.

Lemma preserves_state_getitem k : preserves P (state_getitem k).
Proof.
  intros w w' r. unfold state_getitem.
  destruct (_state w !! k); intros [= <- _] ?; done.
Qed.

Lemma preserves_state_pop k :
  (∀ w, P w → P (with_state (delete k) w)) → preserves P (state_pop k).
Proof.
  intros Hf w w' r. unfold state_pop.
  destruct (_state w !! k); intros [= <- _] ?; auto.
Qed.

Lemma preserves_fresh :
  (∀ w n, P w → P (with_next_id n w)) → preserves P fresh.
Proof. intros Hf w w' r [= <- _] ?. auto. Qed.

Lemma preserves_deregister_callback name f :
  (∀ w c, P w → P (with_callbacks c w)) →
  preserves P (deregister_callback name f).
Proof.
  intros Hf w w' r. unfold deregister_callback.
  destruct (callbacks w !! name) as [l|]; [destruct (remove_first f l)|];
    intros [= <- _] ?; auto.
Qed.
End Preserves.

Lemma preserves_install_chain (P : World → Prop) (l : list (M unit)) :
  Forall (preserves P) l → preserves P (install_chain l).
Proof.
  induction 1 as [|m l Hm _ IH]; simpl.
  - apply preserves_ret.
  - apply preserves_bind.
    + apply preserves_try.
      * apply preserves_bind; [done | intros; apply preserves_ret].
      * intros; apply preserves_ret.
    + intros [|]; [apply preserves_ret | done].
Qed.

Create HintDb py discriminated.
#[local] Hint Unfold
  show show_session show_existing show_new auto_install call_on_shown
  modal_from_environment publish validate install uninstall
  install_callbacks uninstall_callbacks register_callback
  register_dispatch_wrapper deregister_dispatch_wrapper
  register_python_executable register_pyqt5
  _install_maya _install_houdini _install_nuke _install_nukeassist
  _install_hiero _install_nukestudio _remove_googleapiclient
  _acquire_host_main_window connect_quit import widget_named set_labels
  set_modal proxy_update proxy_call external emit
  state_setitem state_get : py.

(** One structural step of a [preserves] proof; [side] settles what a
    primitive write asks for. *)
Ltac preserves_step side :=
  lazymatch goal with
  | |- preserves _ (bind _ _) => apply preserves_bind; [| intros ?]
  | |- preserves _ (try_except _ _ _) => apply preserves_try; [| intros ?]
  | |- preserves _ (ret _) => apply preserves_ret
  | |- preserves _ (raise _) => apply preserves_raise
  | |- preserves _ (gets _) => apply preserves_gets
  | |- preserves _ (state_getitem _) => apply preserves_state_getitem
  | |- preserves _ (state_pop _) => apply preserves_state_pop; side
  | |- preserves _ (modify _) => apply preserves_modify; side
  | |- preserves _ fresh => apply preserves_fresh; side
  | |- preserves _ (deregister_callback _ _) =>
      apply preserves_deregister_callback; side
  | |- preserves _ (install_host _) =>
      apply preserves_install_chain; unfold adapters;
      repeat match goal with
             | |- Forall _ (_ :: _) => constructor
             | |- Forall _ [] => constructor
             end
  | |- preserves _ (match ?x with _ => _ end) => destruct x
  | |- preserves _ _ => progress autounfold with py
  end.

Ltac preserves_auto side := repeat preserves_step side.

(** Writes that leave the two session entries alone keep any property of
    them. *)
Ltac session_side :=
  intros; unfold server_implies_proxy in *; simpl in *;
  repeat case_match; simpl in *;
  rewrite ?lookup_insert_ne, ?lookup_delete_ne by done;
  try done;
  try (rewrite lookup_delete_eq; intros [? [=]]).

Lemma preserves_install_sip h : preserves server_implies_proxy (install h).
Proof. preserves_auto session_side. Qed.

(** The two assignments that register a session come together: whatever
    held before, the invariant holds once both are done. *)
Lemma preserves_register_session (P : World → Prop) {A} server proxy (k : M A) :
  (∀ w, P (with_state (insert "currentProxy" proxy)
             (with_state (insert "currentServer" server) w))) →
  preserves P k →
  preserves P (state_setitem "currentServer" server;;;
               state_setitem "currentProxy" proxy;;; k).
Proof.
  intros Hset Hk w w' r. unfold bind, state_setitem, modify. simpl.
  intros H _. eapply Hk; [exact H | apply Hset].
Qed.

Lemma preserves_show_new_sip h o targets modal :
  preserves server_implies_proxy (show_new h o targets modal).
Proof.
  unfold show_new.
  apply preserves_bind; [preserves_auto session_side | intros splash].
  cbv zeta.
  apply preserves_bind; [preserves_auto session_side | intros [server|]].
  - apply preserves_bind; [preserves_auto session_side | intros proxy].
    apply preserves_bind; [preserves_auto session_side | intros cfg].
    apply preserves_bind; [preserves_auto session_side | intros _].
    apply preserves_register_session.
    + intros w _. simpl. rewrite lookup_insert_eq. eauto.
    + preserves_auto session_side.
  - preserves_auto session_side.
Qed.

Lemma preserves_show_sip h o targets modal :
  preserves server_implies_proxy (show h o targets modal).
Proof.
  unfold show.
  apply preserves_bind; [preserves_auto session_side | intros b].
  apply preserves_bind; [preserves_auto session_side | intros _].
  unfold show_session.
  apply preserves_bind; [preserves_auto session_side | intros current].
  apply preserves_bind; [preserves_auto session_side | intros [server|]].
  - apply preserves_ret.
  - apply preserves_show_new_sip.
Qed.

Lemma preserves_after {A} (P : World → Prop) (m : M A) (w : World) :
  preserves P m → P w → P (after m w).
Proof.
  intros Hm Hw. unfold after. destruct (m w) as [w' r] eqn:E.
  exact (Hm _ _ _ E Hw).
Qed.

Lemma preserves_operation_sip (x : operation) (w : World) :
  server_implies_proxy w → server_implies_proxy (run_operation w x).
Proof.
  intros Hw. destruct x; simpl; apply preserves_after; try done.
  - apply preserves_install_sip.
  - preserves_auto session_side.
  - apply preserves_show_sip.
  - preserves_auto session_side.
  - preserves_auto session_side.
  - preserves_auto session_side.
  - preserves_auto session_side.
  - preserves_auto session_side.
  - preserves_auto session_side.
Qed.

Lemma run_server_implies_proxy (ops : list operation) (w : World) :
  server_implies_proxy w → server_implies_proxy (run ops w).
Proof.
  revert w. induction ops as [|x ops IH]; intros w Hw; simpl; [done|].
  apply IH, preserves_operation_sip, Hw.
Qed.

(** * The registry invariant *)

(** C2, as stated, fails: a [publish()] that finds the GUI gone forgets the
    server and keeps the proxy. *)
Lemma session_entries_not_always_paired :
  ¬ both_or_neither (run [OpShow standalone all_ok [] None; OpPublish gui_gone] w0).
Proof.
  intros [_ H].
  assert (Hp : is_Some (_state (run [OpShow standalone all_ok [] None;
                                     OpPublish gui_gone] w0) !! "currentProxy")).
  { vm_compute. eauto. }
  apply H in Hp. revert Hp. vm_compute. intros [? [=]].
Qed.

(** C2, amended: after every sequence of operations from process start, a
    registered server comes with a registered proxy.  (The converse is what
    stale-session recovery breaks.) *)
Theorem registered_server_has_proxy (ops : list operation) cfg env :
  server_implies_proxy (run ops (initial_world cfg env)).
Proof.
  apply run_server_implies_proxy.
  unfold server_implies_proxy. simpl. rewrite lookup_empty. intros [? [=]].
Qed.

(** * Dispatch wrapper *)

Lemma conforming_check (wr : wrapper) :
  any [negb (Nat.eqb (List.length (w_args wr)) 1);
       bool_decide (w_varargs wr = None);
       bool_decide (w_keywords wr = None)] = false ↔ conforming wr.
Proof.
  unfold conforming, any. simpl. unfold id.
  destruct wr as [n [|a [|b l]] [va|] [kw|]]; simpl; split; try discriminate;
    try (intros (f & x & y & H1 & H2 & H3); discriminate);
    try (intros (f & x & y & H1 & H2 & H3); simpl in *; congruence).
  intros _. eauto 6.
Qed.

(** C5: registration fails with the signature-mismatch [TypeError], the
    world untouched, exactly for the wrappers that are not of shape
    [(func, *args, **kwargs)]; a wrapper of that shape is installed. *)
Theorem register_dispatch_wrapper_signature (wr : wrapper) (w : World) :
  (¬ conforming wr →
   register_dispatch_wrapper wr w = (w, Raise (TypeError "Wrapper signature mismatch")))
  ∧ (conforming wr →
     register_dispatch_wrapper wr w
     = (with_state (insert "dispatchWrapper" (VWrapper wr)) w, Ok tt)
     ∧ dispatch_wrapper (after (register_dispatch_wrapper wr) w)
       = (after (register_dispatch_wrapper wr) w, Ok (VWrapper wr))).
Proof.
  unfold register_dispatch_wrapper.
  destruct (any _) eqn:E.
  - split; [done|]. intros H. apply conforming_check in H. congruence.
  - split.
    + intros H. destruct H. by apply conforming_check.
    + intros _. split; [done|].
      unfold after, dispatch_wrapper, state_get, gets. simpl.
      by rewrite lookup_insert_eq.
Qed.

Lemma register_dispatch_wrapper_signature_witness :
  register_dispatch_wrapper bad_wrapper w_running
  = (w_running, Raise (TypeError "Wrapper signature mismatch"))
  ∧ register_dispatch_wrapper good_wrapper w0
    = (with_state (insert "dispatchWrapper" (VWrapper good_wrapper)) w0, Ok tt).
Proof.
  split.
  - apply (proj1 (register_dispatch_wrapper_signature bad_wrapper w_running)).
    intros (f & a & k & H & _). discriminate H.
  - apply (proj2 (register_dispatch_wrapper_signature good_wrapper w0)).
    exists "func", "args", "kwargs". repeat split.
Defined.

(** With a registered proxy whose [kill()] returns, a failing dispatched
    call kills that proxy once, prints the exception and raises it again;
    the registry, and with it the wrapper, stays as the call left it. *)
Lemma _wrapper_kills_and_reraises o (call : M value) w w1 e p :
  call w = (w1, Raise e) →
  is_Exception e = true →
  _state w1 !! "currentProxy" = Some (VProxy p) →
  o_kill o = Ok tt →
  _wrapper o call w = (log (EPrintExc e) (log (EProxyKill p) w1), Raise e).
Proof.
  intros Hcall He Hp Hk.
  unfold _wrapper, try_except. rewrite Hcall, He.
  unfold bind, state_getitem. rewrite Hp. unfold external. rewrite Hk.
  reflexivity.
Qed.

(** Without a registered proxy the lookup fails, and a [kill()] that
    raises is not caught: the exception of the dispatched call is lost. *)
Lemma _wrapper_without_proxy o (call : M value) w w1 e :
  call w = (w1, Raise e) →
  is_Exception e = true →
  _state w1 !! "currentProxy" = None →
  _wrapper o call w = (w1, Raise (KeyError "currentProxy")).
Proof.
  intros Hcall He Hp.
  unfold _wrapper, try_except. rewrite Hcall, He.
  unfold bind, state_getitem. by rewrite Hp.
Qed.

Lemma _wrapper_kill_raises o (call : M value) w w1 e e' p :
  call w = (w1, Raise e) →
  is_Exception e = true →
  _state w1 !! "currentProxy" = Some (VProxy p) →
  o_kill o = Raise e' →
  _wrapper o call w = (w1, Raise e').
Proof.
  intros Hcall He Hp Hk.
  unfold _wrapper, try_except. rewrite Hcall, He.
  unfold bind, state_getitem. rewrite Hp. unfold external. by rewrite Hk.
Qed.

Lemma _wrapper_passes_result o (call : M value) w w1 v :
  call w = (w1, Ok v) → _wrapper o call w = (w1, Ok v).
Proof. intros H. unfold _wrapper, try_except. by rewrite H. Qed.

(** C1: the kill inside [_wrapper] is not best-effort.  With no session
    registered the lookup of the proxy raises [KeyError], and with a dead
    subprocess [kill()] raises; either replaces the exception of the
    dispatched call, which is neither printed nor raised again.  The quit
    hook, [_on_application_quit], swallows both conditions. *)
Theorem dispatch_kill_failure_masks_exception :
  _wrapper all_ok (raise ValueError) w_wrapper_only
  = (w_wrapper_only, Raise (KeyError "currentProxy"))
  ∧ _wrapper gui_gone (raise ValueError) w_running = (w_running, Raise OSError)
  ∧ _on_application_quit all_ok w_wrapper_only = (w_wrapper_only, Ok tt)
  ∧ _on_application_quit gui_gone w_running = (w_running, Ok tt).
Proof. repeat split; vm_compute; reflexivity. Qed.

(** * publish and validate *)

(** C9: without a registered server, [publish()] and [validate()] return
    and change nothing. *)
Theorem publish_validate_without_server (o : Oracle) (w : World) :
  registered "currentServer" w = false →
  publish o w = (w, Ok tt) ∧ validate o w = (w, Ok tt).
Proof.
  unfold registered. intros H.
  unfold publish, validate, bind, state_get, gets. rewrite H. done.
Qed.

Lemma publish_validate_without_server_witness :
  publish gui_gone w0 = (w0, Ok tt) ∧ validate gui_gone w0 = (w0, Ok tt).
Proof. apply (publish_validate_without_server gui_gone w0). reflexivity. Defined.

(** * Host adapter chain *)

Lemma installer_miss (k : adapter) (h : Host) (w : World) :
  detected k h = false → installer k h w = (w, Raise ImportError).
Proof.
  destruct k; simpl; intros D;
    unfold _install_maya, _install_houdini, _install_nuke, _install_nukeassist,
      _install_hiero, _install_nukestudio, import, bind;
    repeat match goal with
           | |- context [mem ?x ?l] => destruct (mem x l) eqn:?
           end; simpl in *; try done.
Qed.

Lemma installer_hit (k : adapter) (h : Host) (w w' : World) (e : exn) :
  detected k h = true → installer k h w = (w', Raise e) → is_ImportError e = false.
Proof.
  destruct k; simpl; intros D;
    repeat match type of D with
           | _ && _ = true => apply andb_prop in D as [D ?]
           | negb _ = true => apply negb_true_iff in D
           end;
    autounfold with py; unfold bind, modify, gets, raise, ret; simpl;
    repeat match goal with
           | H : mem _ _ = _ |- _ => rewrite H
           | H : negb _ = true |- _ => apply negb_true_iff in H
           end; simpl;
    repeat case_match; simplify_eq; simpl; intros; simplify_eq; done.
Qed.

Lemma installer_wrapper (k : adapter) (h : Host) (w w' : World) :
  installer k h w = (w', Ok tt) →
  _state w' !! "dispatchWrapper" = Some (VWrapper (threaded_wrapper (owner k))).
Proof.
  destruct k; simpl;
    autounfold with py; unfold bind, modify, gets, raise, ret; simpl;
    repeat case_match; simplify_eq; simpl; intros; simplify_eq; simpl;
    rewrite ?lookup_insert_ne by done; by rewrite ?lookup_insert_eq.
Qed.

Lemma install_chain_first_detected (h : Host) (l : list adapter) (w : World) :
  install_chain (map (λ k, installer k h) l) w
  = match List.find (λ k, detected k h) l with
    | Some k => installer k h w
    | None => (w, Ok tt)
    end.
Proof.
  induction l as [|k l IH]; simpl; [done|].
  unfold bind at 1. unfold try_except, bind at 1.
  destruct (detected k h) eqn:D.
  - destruct (installer k h w) as [w' [[]|e]] eqn:E; simpl; [done|].
    by rewrite (installer_hit _ _ _ _ _ D E).
  - rewrite (installer_miss _ _ _ D). simpl. apply IH.
Qed.

(** C6: [install_host()] runs the installer of the first adapter, in the
    order Maya, Houdini, Nuke, NukeAssist, Hiero, NukeStudio, whose host is
    detected, and nothing else: its world and its outcome, an exception
    included, are those of the call.  An adapter whose host is not
    detected raises [ImportError] and leaves no trace; a detected one
    never raises [ImportError]; the one that returns has installed its own
    wrapper. *)
Theorem install_host_first_detected (h : Host) (w : World) :
  adapters h = map (λ k, installer k h) priority
  ∧ install_host h w
    = match List.find (λ k, detected k h) priority with
      | Some k => installer k h w
      | None => (w, Ok tt)
      end
  ∧ (∀ k, detected k h = false → installer k h w = (w, Raise ImportError))
  ∧ (∀ k w' e, detected k h = true → installer k h w = (w', Raise e) →
               is_ImportError e = false)
  ∧ (∀ k w', installer k h w = (w', Ok tt) →
             _state w' !! "dispatchWrapper"
             = Some (VWrapper (threaded_wrapper (owner k)))).
Proof.
  split; [done|]. split; [exact (install_chain_first_detected h priority w)|].
  split; [intros; by apply installer_miss|].
  split; [intros k w' e D E; exact (installer_hit _ _ _ _ _ D E)|].
  intros k w' E; exact (installer_wrapper _ _ _ _ E).
Qed.

Lemma install_host_first_detected_witness :
  install_host nuke_host w0 = installer Nuke nuke_host w0
  ∧ installer Maya nuke_host w0 = (w0, Raise ImportError).
Proof.
  split.
  - exact (proj1 (proj2 (install_host_first_detected nuke_host w0))).
  - apply (proj1 (proj2 (proj2 (install_host_first_detected nuke_host w0))) Maya).
    reflexivity.
Defined.

(** * Install and the callback bridge *)

Lemma remove_first_count (f g : handler) (l l' : list handler) :
  remove_first f l = Some l' →
  List.length (filter (λ x, x = g) l)
  = List.length (filter (λ x, x = g) l') + (if decide (f = g) then 1 else 0).
Proof.
  revert l'. induction l as [|y l IH]; intros l'; simpl; [done|].
  destruct (decide (y = f)) as [->|Hne].
  - intros [= <-]. rewrite filter_cons.
    destruct (decide (f = g)); simpl; lia.
  - destruct (remove_first f l) as [l0|] eqn:E; simpl; [|done].
    intros [= <-]. rewrite !filter_cons. specialize (IH _ eq_refl).
    destruct (decide (y = g)); simpl; lia.
Qed.

Lemma remove_first_registered (f : handler) (l : list handler) :
  0 < List.length (filter (λ x, x = f) l) → is_Some (remove_first f l).
Proof.
  induction l as [|y l IH]; simpl; [lia|].
  rewrite filter_cons.
  destruct (decide (y = f)); [eauto|].
  intros H. destruct (IH H) as [l' ->]. simpl. eauto.
Qed.

Ltac decide_names :=
  repeat match goal with
         | |- context [decide ?P] => destruct (decide P) as [[? ?]|?]
         | H : context [decide ?P] |- _ => destruct (decide P) as [[? ?]|?]
         end;
  try done; try lia;
  try match goal with H : ¬ (_ ∧ _) |- _ => by destruct H end.

Lemma registrations_register name f name' g w :
  registrations name' g (after (register_callback name f) w)
  = registrations name' g w
    + (if decide (name = name' ∧ f = g) then 1 else 0).
Proof.
  unfold registrations, after, register_callback, modify. simpl.
  destruct (decide (name = name')) as [->|Hne].
  - rewrite lookup_insert_eq. simpl. rewrite filter_app, length_app.
    rewrite filter_cons, filter_nil.
    destruct (decide (f = g)) as [->|?]; simpl; decide_names.
  - rewrite lookup_insert_ne by done. decide_names.
Qed.

Lemma registrations_deregister name f w :
  0 < registrations name f w →
  ∃ w', deregister_callback name f w = (w', Ok tt)
        ∧ _state w' = _state w ∧ trace w' = trace w
        ∧ ∀ name' g, registrations name' g w
                     = registrations name' g w'
                       + (if decide (name = name' ∧ f = g) then 1 else 0).
Proof.
  unfold registrations, deregister_callback. intros H.
  destruct (callbacks w !! name) as [l|] eqn:E; simpl in H; [|lia].
  destruct (remove_first_registered _ _ H) as [l' Hl]. rewrite Hl.
  eexists. split; [done|]. split; [done|]. split; [done|].
  intros name' g. simpl.
  destruct (decide (name = name')) as [<-|Hne].
  - rewrite lookup_insert_eq, E. simpl.
    rewrite (remove_first_count _ g _ _ Hl).
    destruct (decide (f = g)) as [->|?]; decide_names.
  - rewrite lookup_insert_ne by done. decide_names.
Qed.

(** What does not touch the callback registry. *)
Ltac callbacks_side := intros; simpl in *; repeat case_match; simpl in *; done.

Lemma install_host_callbacks h c :
  preserves (λ w, callbacks w = c) (install_host h).
Proof. preserves_auto callbacks_side. Qed.

Ltac extends_side :=
  intros; unfold extends in *; simpl in *; repeat case_match; simpl in *;
  try done;
  match goal with
  | H : ∃ rest, _ = _ ++ rest |- _ =>
      let r := fresh in destruct H as [r H]; rewrite H, <- app_assoc; eauto
  end.

Lemma install_host_extends h t : preserves (extends t) (install_host h).
Proof. preserves_auto extends_side. Qed.

(** What keeps the [installed] flag set. *)
Ltac installed_side :=
  intros; unfold registered in *; simpl in *; repeat case_match; simpl in *;
  rewrite ?lookup_insert_ne, ?lookup_delete_ne by done; try done;
  rewrite ?lookup_insert_eq; try done.

Lemma install_host_installed h :
  preserves (λ w, registered "installed" w = true) (install_host h).
Proof. preserves_auto installed_side. Qed.

Lemma registrations_callbacks name g w w' :
  callbacks w' = callbacks w → registrations name g w' = registrations name g w.
Proof. unfold registrations. by intros ->. Qed.

Lemma install_callbacks_registrations w :
  registrations "instanceToggled" _toggle_instance (after install_callbacks w)
  = S (registrations "instanceToggled" _toggle_instance w)
  ∧ registrations "pluginToggled" _toggle_plugin (after install_callbacks w)
    = S (registrations "pluginToggled" _toggle_plugin w).
Proof.
  change (after install_callbacks w)
    with (after (register_callback "pluginToggled" _toggle_plugin)
            (after (register_callback "instanceToggled" _toggle_instance) w)).
  rewrite !registrations_register. split; decide_names.
Qed.

Lemma install_rest_spec h w w' r :
  install_rest h w = (w', r) →
  registrations "instanceToggled" _toggle_instance w'
  = S (registrations "instanceToggled" _toggle_instance w)
  ∧ registrations "pluginToggled" _toggle_plugin w'
    = S (registrations "pluginToggled" _toggle_plugin w)
  ∧ (r = Ok tt → registered "installed" w' = true)
  ∧ (registered "installed" w = true → registered "installed" w' = true)
  ∧ extends (trace w) w'.
Proof.
  unfold install_rest. unfold bind at 1.
  change (install_callbacks w) with (after install_callbacks w, Ok tt).
  cbv iota beta. unfold bind.
  destruct (install_callbacks_registrations w) as [Hi Hp].
  destruct (install_host h (after install_callbacks w)) as [w3 r3] eqn:E.
  pose proof (install_host_callbacks h _ _ _ _ E eq_refl) as Hc.
  assert (Hreg : ∀ name g, registrations name g w3
                           = registrations name g (after install_callbacks w))
    by (intros; by apply registrations_callbacks).
  pose proof (install_host_installed h _ _ _ E) as Hk.
  assert (Ht : extends (trace w) w3).
  { apply (install_host_extends h _ _ _ _ E). exists []. simpl.
    by rewrite app_nil_r. }
  destruct r3 as [[]|e]; intros [= <- <-].
  - rewrite !(registrations_callbacks _ _ w3 (with_state _ w3) eq_refl).
    rewrite !Hreg, Hi, Hp. repeat split; try done.
    + intros _. unfold registered. simpl. by rewrite lookup_insert_eq.
    + intros _. unfold registered. simpl. by rewrite lookup_insert_eq.
  - rewrite !Hreg, Hi, Hp. repeat split; try done.
Qed.

Lemma install_not_installed h w :
  registered "installed" w = false → install h w = install_rest h w.
Proof.
  unfold registered. intros H.
  unfold install, bind at 1, state_get, gets. cbv beta iota. rewrite H.
  reflexivity.
Qed.

Lemma install_installed h w :
  registered "installed" w = true →
  install h w = ((emit already_installed;;; uninstall);;; install_rest h) w.
Proof.
  unfold registered. intros H.
  unfold install, bind at 1, state_get, gets. cbv beta iota. rewrite H.
  reflexivity.
Qed.

Lemma uninstall_spec w :
  0 < registrations "instanceToggled" _toggle_instance w →
  0 < registrations "pluginToggled" _toggle_plugin w →
  ∃ w', uninstall w = (w', Ok tt)
        ∧ _state w' = _state w
        ∧ trace w' = trace w ++ [shutdown_successful]
        ∧ S (registrations "instanceToggled" _toggle_instance w')
          = registrations "instanceToggled" _toggle_instance w
        ∧ S (registrations "pluginToggled" _toggle_plugin w')
          = registrations "pluginToggled" _toggle_plugin w.
Proof.
  intros Hi Hp.
  destruct (registrations_deregister _ _ _ Hi) as (wa & Ea & Sa & Ta & Ra).
  assert (Hp' : 0 < registrations "pluginToggled" _toggle_plugin wa).
  { rewrite (Ra "pluginToggled" _toggle_plugin) in Hp. decide_names. }
  destruct (registrations_deregister _ _ _ Hp') as (wb & Eb & Sb & Tb & Rb).
  exists (log shutdown_successful wb).
  split; [|split; [|split; [|split]]].
  - unfold uninstall, uninstall_callbacks, bind. rewrite Ea, Eb. reflexivity.
  - simpl. congruence.
  - simpl. congruence.
  - change (registrations "instanceToggled" _toggle_instance (log shutdown_successful wb))
      with (registrations "instanceToggled" _toggle_instance wb).
    rewrite (Ra "instanceToggled" _toggle_instance).
    rewrite (Rb "instanceToggled" _toggle_instance). decide_names.
  - change (registrations "pluginToggled" _toggle_plugin (log shutdown_successful wb))
      with (registrations "pluginToggled" _toggle_plugin wb).
    rewrite (Ra "pluginToggled" _toggle_plugin).
    rewrite (Rb "pluginToggled" _toggle_plugin). decide_names.
Qed.

Lemma install_coherent h w w' r :
  coherent w → install h w = (w', r) →
  registrations "instanceToggled" _toggle_instance w' = 1
  ∧ registrations "pluginToggled" _toggle_plugin w' = 1
  ∧ (r = Ok tt → registered "installed" w' = true)
  ∧ (registered "installed" w = true →
     registered "installed" w' = true
     ∧ extends (trace w ++ [already_installed; shutdown_successful]) w').
Proof.
  intros [(Hf & Hi & Hp)|(Ht & Hi & Hp)] E.
  - rewrite install_not_installed in E by done.
    destruct (install_rest_spec _ _ _ _ E) as (Ri & Rp & Ro & _ & _).
    rewrite Ri, Rp, Hi, Hp. repeat split; try done. congruence. congruence.
  - rewrite install_installed in E by done.
    destruct (uninstall_spec (log already_installed w)) as (wu & Eu & Su & Tu & Ui & Up).
    { change (0 < registrations "instanceToggled" _toggle_instance w). lia. }
    { change (0 < registrations "pluginToggled" _toggle_plugin w). lia. }
    unfold bind at 1 in E. unfold bind at 1 in E.
    change (emit already_installed w) with (log already_installed w, Ok tt) in E.
    cbv beta iota in E. rewrite Eu in E.
    destruct (install_rest_spec _ _ _ _ E) as (Ri & Rp & Ro & Rk & Rt).
    change (registrations "instanceToggled" _toggle_instance (log already_installed w))
      with (registrations "instanceToggled" _toggle_instance w) in Ui.
    change (registrations "pluginToggled" _toggle_plugin (log already_installed w))
      with (registrations "pluginToggled" _toggle_plugin w) in Up.
    assert (Hk : registered "installed" wu = true).
    { unfold registered in *. rewrite Su. exact Ht. }
    split; [lia|]. split; [lia|]. split; [done|]. intros _. split; [auto|].
    rewrite Tu in Rt. simpl in Rt. by rewrite <- app_assoc in Rt.
Qed.




(** * show *)

Lemma show_unfold h o targets modal w :
  show h o targets modal w
  = (auto_install h;;; show_session h o targets (resolve_modal modal w)) w.
Proof. destruct modal; reflexivity. Qed.

(** [auto_install] writes neither of the two session entries, and touches
    no server, proxy or object identity. *)
Ltac entry_side :=
  intros; simpl in *; repeat case_match; simpl in *;
  rewrite ?lookup_insert_ne, ?lookup_delete_ne by done; done.

Lemma auto_install_currentServer h v :
  preserves (λ w, _state w !! "currentServer" = v) (auto_install h).
Proof. preserves_auto entry_side. Qed.

Lemma auto_install_currentProxy h v :
  preserves (λ w, _state w !! "currentProxy" = v) (auto_install h).
Proof. preserves_auto entry_side. Qed.

Lemma auto_install_objects h sv px n :
  preserves (λ w, servers w = sv ∧ proxies w = px ∧ next_id w = n) (auto_install h).
Proof.
  preserves_auto ltac:(intros; simpl in *; repeat case_match; simpl in *; tauto).
Qed.

Lemma show_existing_healthy o b w s p srv :
  _state w !! "currentServer" = Some (VServer s) →
  _state w !! "currentProxy" = Some (VProxy p) →
  servers w !! s = Some srv →
  o_update o = Ok tt →
  o_show o = Ok tt →
  show_existing o b w
  = (log (EProxyShow p (settings w))
       (with_proxies (alter (λ px, mkProxy (p_server px) b (p_headless px)) p (proxies w))
          (log (EProxyUpdate p s)
             (with_servers (<[s := mkServer b (s_targets srv)]> (servers w)) w))),
     Ok (Some (VServer s))).
Proof.
  intros Hs Hp Hsrv Hu Hsh.
  unfold show_existing, bind, state_getitem. rewrite Hs.
  unfold set_modal, modify, try_except, bind, state_getitem. simpl.
  rewrite Hp.
  unfold proxy_update, proxy_call, external, bind, emit, modify, gets, ret.
  rewrite Hu, Hsh. simpl.
  rewrite lookup_alter_eq, Hsrv. simpl.
  replace (alter (λ srv0, mkServer b (s_targets srv0)) s (servers w))
    with (<[s := mkServer b (s_targets srv)]> (servers w)); [done|].
  apply map_eq. intros i. destruct (decide (i = s)) as [->|Hne].
  - by rewrite lookup_alter_eq, lookup_insert_eq, Hsrv.
  - by rewrite lookup_alter_ne, lookup_insert_ne.
Qed.

Lemma show_session_registered h o targets b w :
  registered "currentServer" w = true →
  show_session h o targets b w
  = match show_existing o b w with
    | (w', Ok (Some server)) => (w', Ok server)
    | (w', Ok None) => show_new h o targets b w'
    | (w', Raise e) => (w', Raise e)
    end.
Proof.
  unfold registered. intros H.
  unfold show_session, bind at 1, state_get, gets. cbv beta iota. rewrite H.
  unfold bind. destruct (show_existing o b w) as [w' [[server|]|e]]; reflexivity.
Qed.

Lemma show_session_unregistered h o targets b w :
  registered "currentServer" w = false →
  show_session h o targets b w = show_new h o targets b w.
Proof.
  unfold registered. intros H.
  unfold show_session, bind at 1, state_get, gets. cbv beta iota. rewrite H.
  reflexivity.
Qed.

(** C8: with a healthy server registered, [show()] creates nothing: it
    sets the server's modality to the requested one, refreshes the proxy's
    view, shows with the current settings and returns the registered
    server; the registry is as the automatic install left it, the two
    session entries as they were. *)
Theorem show_reuses_healthy_server h o targets modal w w1 s p srv :
  auto_install h w = (w1, Ok tt) →
  _state w !! "currentServer" = Some (VServer s) →
  _state w !! "currentProxy" = Some (VProxy p) →
  servers w !! s = Some srv →
  o_update o = Ok tt →
  o_show o = Ok tt →
  ∃ w', show h o targets modal w = (w', Ok (VServer s))
        ∧ _state w' = _state w1
        ∧ _state w' !! "currentServer" = Some (VServer s)
        ∧ _state w' !! "currentProxy" = Some (VProxy p)
        ∧ servers w' = <[s := mkServer (resolve_modal modal w) (s_targets srv)]> (servers w)
        ∧ proxies w'
          = alter (λ px, mkProxy (p_server px) (resolve_modal modal w) (p_headless px))
                  p (proxies w)
        ∧ next_id w' = next_id w
        ∧ trace w' = trace w1 ++ [EProxyUpdate p s; EProxyShow p (settings w1)].
Proof.
  intros Hinst Hs Hp Hsrv Hu Hsh.
  pose proof (auto_install_currentServer h _ _ _ _ Hinst Hs) as Hs1.
  pose proof (auto_install_currentProxy h _ _ _ _ Hinst Hp) as Hp1.
  destruct (auto_install_objects h _ _ _ _ _ _ Hinst (conj eq_refl (conj eq_refl eq_refl)))
    as (Hsv & Hpx & Hn).
  simpl in Hs1, Hp1. rewrite <- Hsv in Hsrv.
  rewrite show_unfold. unfold bind at 1. rewrite Hinst.
  rewrite show_session_registered by (unfold registered; by rewrite Hs1).
  rewrite (show_existing_healthy _ _ _ _ _ _ Hs1 Hp1 Hsrv Hu Hsh).
  eexists. split; [reflexivity|]. simpl.
  rewrite Hsv, Hpx, Hn, <- app_assoc. done.
Qed.

Lemma show_reuses_healthy_server_witness :
  ∃ w', show nuke_host all_ok [] (Some false) w_running_nuke = (w', Ok (VServer 1))
        ∧ servers w' !! 1 = Some (mkServer false [])
        ∧ next_id w' = next_id w_running_nuke.
Proof.
  destruct (show_reuses_healthy_server nuke_host all_ok [] (Some false)
              w_running_nuke w_running_nuke 1 2 (mkServer true []))
    as (w' & E & _ & _ & _ & Hsv & _ & Hn & _);
    try (vm_compute; reflexivity).
  exists w'. split; [exact E|]. split; [|exact Hn].
  rewrite Hsv. apply lookup_insert_eq.
Defined.

Lemma remove_first_app (f : handler) (l : list handler) :
  ∃ l', remove_first f (l ++ [f]) = Some l'
        ∧ ∀ g, List.length (filter (λ x, x = g) l')
               = List.length (filter (λ x, x = g) l).
Proof.
  induction l as [|y l (l' & E & IH)]; simpl.
  - rewrite decide_True by done. eauto.
  - destruct (decide (y = f)) as [->|Hne].
    + eexists. split; [done|]. intros g.
      rewrite filter_app, length_app, !filter_cons, filter_nil.
      destruct (decide (f = g)); simpl; lia.
    + rewrite E. simpl. eexists. split; [done|]. intros g.
      rewrite !filter_cons. destruct (decide (y = g)); simpl; by rewrite IH.
Qed.

Lemma show_new_construction_fails h o targets b w e :
  construction_fails o e →
  is_Exception e = true →
  ∃ w', show_new h o targets b w = (w', Ok VNone)
        ∧ _state w' = _state w
        ∧ servers w' = servers w
        ∧ proxies w' = proxies w
        ∧ trace w' = trace w ++ failed_start_trace h o (next_id w) e
        ∧ ∀ name g, registrations name g w' = registrations name g w.
Proof.
  intros Hfail He.
  unfold show_new, failed_start_trace.
  destruct (_is_headless h); cbv zeta; simpl negb; cbv iota.
  - unfold bind at 1. change (ret (@None nat) w) with (w, Ok (@None nat)).
    cbv beta iota.
    unfold bind, try_except, external, emit, modify, raise, ret.
    destruct Hfail as [Hs|[Hs Hv]]; rewrite Hs; [|rewrite Hv]; simpl; rewrite He;
      (eexists; split; [reflexivity|]); simpl; rewrite ?app_nil_r, <- ?app_assoc;
      repeat split; done.
  - destruct (remove_first_app (on_shown (next_id w))
                (default [] (callbacks w !! "pyblishQmlShown"))) as (l' & El & Hl).
    unfold call_on_shown, deregister_callback, register_callback, fresh.
    unfold bind, try_except, external, emit, modify, raise, ret.
    destruct Hfail as [Hs|[Hs Hv]]; rewrite Hs; [|rewrite Hv]; simpl; rewrite He;
      destruct (o_splash_closed o); simpl; rewrite lookup_insert_eq, El;
      (eexists; split; [reflexivity|]); simpl; rewrite <- ?app_assoc;
      (repeat split; try done); intros name g; unfold registrations; simpl;
      (destruct (decide (name = "pyblishQmlShown")) as [->|Hne];
       [rewrite !lookup_insert_eq; simpl; apply Hl
       |by rewrite !lookup_insert_ne by done]).
Qed.

(** C4: with no server registered, a [show()] whose server cannot be
    constructed prints the failure, calls [on_shown] at once (the splash,
    if any, is closed and the callback deregistered again) and returns
    [None]; nothing is registered or created: the registry is as the
    automatic install left it, the two session entries as before the
    call. *)
Theorem show_construction_failure h o targets modal w w1 e :
  auto_install h w = (w1, Ok tt) →
  registered "currentServer" w = false →
  construction_fails o e →
  is_Exception e = true →
  ∃ w', show h o targets modal w = (w', Ok VNone)
        ∧ _state w' = _state w1
        ∧ _state w' !! "currentServer" = _state w !! "currentServer"
        ∧ _state w' !! "currentProxy" = _state w !! "currentProxy"
        ∧ registered "currentServer" w' = false
        ∧ servers w' = servers w
        ∧ proxies w' = proxies w
        ∧ trace w' = trace w1 ++ failed_start_trace h o (next_id w) e
        ∧ ∀ name g, registrations name g w' = registrations name g w1.
Proof.
  intros Hinst Hs Hfail He.
  pose proof (auto_install_currentServer h _ _ _ _ Hinst eq_refl) as Hs1.
  pose proof (auto_install_currentProxy h _ _ _ _ Hinst eq_refl) as Hp1.
  destruct (auto_install_objects h _ _ _ _ _ _ Hinst (conj eq_refl (conj eq_refl eq_refl)))
    as (Hsv & Hpx & Hn).
  simpl in Hs1, Hp1.
  assert (Hr1 : registered "currentServer" w1 = false)
    by (unfold registered in *; by rewrite Hs1).
  rewrite show_unfold. unfold bind at 1. rewrite Hinst.
  rewrite show_session_unregistered by done.
  destruct (show_new_construction_fails h o targets (resolve_modal modal w) w1 e Hfail He)
    as (w' & E & St & Sv & Px & Tr & Rg).
  exists w'. split; [exact E|].
  unfold registered in *. rewrite St, Sv, Px, Tr, Hn, Hs1, Hp1. done.
Qed.

Lemma show_construction_failure_witness :
  ∃ w', show nuke_host no_gui [] None w0 = (w', Ok VNone)
        ∧ _state w' !! "currentServer" = None
        ∧ _state w' !! "currentProxy" = None.
Proof.
  destruct (show_construction_failure nuke_host no_gui [] None w0
              (after (auto_install nuke_host) w0) OSError)
    as (w' & E & _ & Hs & Hp & _).
  - vm_compute. reflexivity.
  - reflexivity.
  - right. split; reflexivity.
  - reflexivity.
  - exists w'. split; [exact E|]. split; [exact Hs | exact Hp].
Defined.

(** * Stale sessions *)

Ltac stale_cases Hs Hst :=
  unfold stale in Hst;
  unfold try_except, bind, state_getitem, proxy_update, proxy_call, external,
    emit, modify, gets, raise, ret, state_pop;
  destruct (_state _ !! "currentProxy") as [[]|]; try done;
  repeat match goal with
         | |- context [match ?r with Ok _ => _ | Raise _ => _ end] =>
             match type of r with
             | result unit => destruct r as [[]|?]
             end
         end;
  try done; simpl; rewrite ?Hst; simpl; rewrite ?Hs; simpl.

Lemma publish_stale o w s :
  _state w !! "currentServer" = Some (VServer s) →
  stale w (o_update o) (o_publish o) →
  ∃ w', publish o w = (w', Ok tt) ∧ _state w' = delete "currentServer" (_state w).
Proof.
  intros Hs Hst.
  unfold publish, bind at 1, state_get, gets. cbv beta iota. rewrite Hs. simpl.
  unfold bind at 1, state_getitem at 1. rewrite Hs.
  stale_cases Hs Hst; repeat case_match; simpl in *; simplify_eq; eauto.
Qed.

Lemma validate_stale o w s :
  _state w !! "currentServer" = Some (VServer s) →
  stale w (o_update o) (o_validate o) →
  ∃ w', validate o w = (w', Ok tt) ∧ _state w' = delete "currentServer" (_state w).
Proof.
  intros Hs Hst.
  unfold validate, bind at 1, state_get, gets. cbv beta iota. rewrite Hs. simpl.
  unfold bind at 1, state_getitem at 1. rewrite Hs.
  stale_cases Hs Hst; repeat case_match; simpl in *; simplify_eq; eauto.
Qed.

Lemma show_existing_stale o b w s :
  _state w !! "currentServer" = Some (VServer s) →
  stale w (o_update o) (o_show o) →
  ∃ w', show_existing o b w = (w', Ok None)
        ∧ _state w' = delete "currentServer" (_state w).
Proof.
  intros Hs Hst.
  unfold show_existing, bind at 1, state_getitem at 1. rewrite Hs.
  unfold set_modal, bind at 1, modify.
  stale_cases Hs Hst; repeat case_match; simpl in *; simplify_eq; eauto.
Qed.

(** C3, as stated, fails for [show()]: finding the registered session
    stale, it forgets it and starts a new one in the same call. *)
Lemma stale_show_starts_new_session :
  _state w_running !! "currentServer" = Some (VServer 0)
  ∧ stale w_running (o_update gui_gone) (o_show gui_gone)
  ∧ snd (show standalone gui_gone [] None w_running) = Ok (VServer 2)
  ∧ _state (after (show standalone gui_gone [] None) w_running) !! "currentServer"
    = Some (VServer 2)
  ∧ EServerNew 2 ∈ trace (after (show standalone gui_gone [] None) w_running).
Proof.
  split; [vm_compute; reflexivity|].
  split; [vm_compute; reflexivity|].
  split; [vm_compute; reflexivity|].
  split; [vm_compute; reflexivity|].
  vm_compute. repeat ((by left) || right).
Qed.

(** C3, amended: when delegation to the registered proxy ends in an I/O
    failure or a missing key, [publish()] and [validate()] forget the
    server entry and return; [show()] forgets it too and then goes on, in
    the same call, exactly as it starts a session when none is
    registered. *)
Theorem stale_session_recovery o w s :
  _state w !! "currentServer" = Some (VServer s) →
  (stale w (o_update o) (o_publish o) →
   ∃ w', publish o w = (w', Ok tt)
         ∧ _state w' = delete "currentServer" (_state w))
  ∧ (stale w (o_update o) (o_validate o) →
     ∃ w', validate o w = (w', Ok tt)
           ∧ _state w' = delete "currentServer" (_state w))
  ∧ (stale w (o_update o) (o_show o) →
     ∀ h targets modal w1,
       auto_install h w = (w1, Ok tt) →
       ∃ w2, _state w2 = delete "currentServer" (_state w1)
             ∧ show h o targets modal w
               = show_new h o targets (resolve_modal modal w) w2).
Proof.
  intros Hs. split; [by apply (publish_stale o w s)|].
  split; [by apply (validate_stale o w s)|].
  intros Hst h targets modal w1 Hinst.
  pose proof (auto_install_currentServer h _ _ _ _ Hinst Hs) as Hs1.
  pose proof (auto_install_currentProxy h _ _ _ _ Hinst eq_refl) as Hp1.
  simpl in Hs1, Hp1.
  assert (Hst1 : stale w1 (o_update o) (o_show o))
    by (unfold stale in *; by rewrite Hp1).
  destruct (show_existing_stale o (resolve_modal modal w) w1 s Hs1 Hst1)
    as (w2 & E & St).
  exists w2. split; [exact St|].
  rewrite show_unfold. unfold bind at 1. rewrite Hinst.
  rewrite show_session_registered by (unfold registered; by rewrite Hs1).
  by rewrite E.
Qed.

Lemma stale_session_recovery_witness :
  ∃ w', publish gui_gone w_running = (w', Ok tt)
        ∧ _state w' = delete "currentServer" (_state w_running).
Proof.
  apply (proj1 (stale_session_recovery gui_gone w_running 0 eq_refl)).
  vm_compute. reflexivity.
Defined.

(** * Automatic install *)

Lemma auto_install_unfold h w :
  auto_install h w = if registered "installed" w then (w, Ok tt) else install h w.
Proof.
  unfold auto_install, registered, bind, state_get, gets.
  by destruct (truthy _).
Qed.

Lemma show_session_installed h o targets b :
  preserves (λ w, registered "installed" w = true) (show_session h o targets b).
Proof. preserves_auto installed_side. Qed.

Lemma install_rest_raises h w w1 e :
  install_rest h w = (w1, Raise e) →
  _state w1 !! "installed" = _state w !! "installed".
Proof.
  unfold install_rest. unfold bind at 1.
  change (install_callbacks w) with (after install_callbacks w, Ok tt).
  cbv beta iota. unfold bind.
  destruct (install_host h (after install_callbacks w)) as [w3 [[]|e3]] eqn:E;
    [discriminate|].
  intros [= <- _].
  assert (Hp : preserves (λ w', _state w' !! "installed" = _state w !! "installed")
                 (install_host h)) by preserves_auto entry_side.
  exact (Hp _ _ _ E eq_refl).
Qed.

(** C10, as stated, fails: when the automatic [install()] raises, here in
    Houdini's batch interpreter, which has no Qt application, [show()]
    raises with it and the flag is not set. *)
Lemma show_failed_install_leaves_flag_unset :
  snd (show hython all_ok [] None w0) = Raise AttributeError
  ∧ registered "installed" (after (show hython all_ok [] None) w0) = false.
Proof. split; vm_compute; reflexivity. Qed.

(** C10, amended: a [show()] that finds the bridge not installed runs
    [install()] before anything else.  If that returns, the [installed]
    flag is set then and still set when [show()] ends, however it ends; if
    it raises, [show()] ends there with the same exception, before any
    server handling, and the flag stays unset. *)
Theorem show_installs_first h o targets modal w :
  (registered "installed" w = false →
   show h o targets modal w
   = (install h;;; show_session h o targets (resolve_modal modal w)) w)
  ∧ (∀ w1, auto_install h w = (w1, Ok tt) →
           registered "installed" w1 = true
           ∧ registered "installed" (after (show h o targets modal) w) = true)
  ∧ (∀ w1 e, auto_install h w = (w1, Raise e) →
             install h w = (w1, Raise e)
             ∧ show h o targets modal w = (w1, Raise e)
             ∧ registered "installed" w1 = false).
Proof.
  split; [|split].
  - intros H. rewrite show_unfold. unfold bind.
    by rewrite auto_install_unfold, H.
  - intros w1 E.
    assert (H1 : registered "installed" w1 = true).
    { rewrite auto_install_unfold in E.
      destruct (registered "installed" w) eqn:H.
      - by injection E as <-.
      - rewrite install_not_installed in E by done.
        destruct (install_rest_spec _ _ _ _ E) as (_ & _ & Ho & _). auto. }
    split; [done|].
    unfold after. rewrite show_unfold. unfold bind at 1. rewrite E.
    destruct (show_session h o targets (resolve_modal modal w) w1) as [w' r] eqn:E'.
    exact (show_session_installed _ _ _ _ _ _ _ E' H1).
  - intros w1 e E.
    assert (H : registered "installed" w = false).
    { rewrite auto_install_unfold in E.
      by destruct (registered "installed" w). }
    rewrite auto_install_unfold, H in E.
    split; [done|]. split.
    + rewrite show_unfold. unfold bind. by rewrite auto_install_unfold, H, E.
    + rewrite install_not_installed in E by done.
      unfold registered in *. by rewrite (install_rest_raises _ _ _ _ E).
Qed.

Lemma show_installs_first_witness :
  registered "installed" (after (show standalone all_ok [] None) w0) = true.
Proof.
  apply (proj1 (proj2 (show_installs_first standalone all_ok [] None w0))
           (after (auto_install standalone) w0)).
  vm_compute. reflexivity.
Defined.

(** In every state the entry points can produce from process start, a
    registered server comes with the [installed] flag, so that the
    automatic install of [show()] has nothing to do there. *)
Ltac sii_side :=
  intros; unfold server_implies_installed, registered in *; simpl in *;
  repeat case_match; simpl in *;
  rewrite ?lookup_insert_ne, ?lookup_delete_ne by done;
  try done;
  try (rewrite lookup_delete_eq; intros [? [=]]);
  try (by rewrite lookup_insert_eq).

Lemma install_server_implies_installed h :
  preserves server_implies_installed (install h).
Proof. preserves_auto sii_side. Qed.

Lemma show_server_implies_installed h o targets modal :
  preserves server_implies_installed (show h o targets modal).
Proof.
  intros w w' r E Hw. rewrite show_unfold in E. unfold bind at 1 in E.
  destruct (auto_install h w) as [w1 [[]|e]] eqn:Ei.
  - intros _.
    apply (show_session_installed h o targets (resolve_modal modal w) w1 w' r E).
    rewrite auto_install_unfold in Ei.
    destruct (registered "installed" w) eqn:H.
    + by injection Ei as <-.
    + rewrite install_not_installed in Ei by done.
      destruct (install_rest_spec _ _ _ _ Ei) as (_ & _ & Ho & _). auto.
  - injection E as <- _. revert Ei Hw.
    assert (Hp : preserves server_implies_installed (auto_install h))
      by preserves_auto sii_side.
    apply Hp.
Qed.

Lemma run_server_implies_installed (ops : list operation) cfg env :
  server_implies_installed (run ops (initial_world cfg env)).
Proof.
  assert (H0 : server_implies_installed (initial_world cfg env)).
  { unfold server_implies_installed. simpl. rewrite lookup_empty. intros [? [=]]. }
  revert H0. generalize (initial_world cfg env).
  induction ops as [|x ops IH]; intros w Hw; simpl; [done|].
  apply IH. destruct x; simpl; apply preserves_after; try done.
  - apply install_server_implies_installed.
  - preserves_auto sii_side.
  - apply show_server_implies_installed.
  - preserves_auto sii_side.
  - preserves_auto sii_side.
  - preserves_auto sii_side.
  - preserves_auto sii_side.
  - preserves_auto sii_side.
  - preserves_auto sii_side.
Qed.

Lemma auto_install_with_server (ops : list operation) cfg env h :
  let w := run ops (initial_world cfg env) in
  is_Some (_state w !! "currentServer") → auto_install h w = (w, Ok tt).
Proof.
  intros w Hs. rewrite auto_install_unfold.
  pose proof (run_server_implies_installed ops cfg env Hs) as Hi.
  fold w in Hi. by rewrite Hi.
Qed.

(** * Strings of [_remove_googleapiclient] *)

Lemma split_nonempty sep s : split sep s ≠ [].
Proof.
  destruct s as [|c s]; simpl; [done|].
  destruct (Ascii.eqb c sep); [done|]. by destruct (split sep s).
Qed.

Lemma join_cons sep x y l :
  join sep (x :: y :: l) = (x ++ String sep (join sep (y :: l)))%string.
Proof. reflexivity. Qed.

Lemma join_of_split sep s : join sep (split sep s) = s.
Proof.
  induction s as [|c s IH]; simpl; [done|].
  pose proof (split_nonempty sep s) as Hne.
  destruct (Ascii.eqb c sep) eqn:E.
  - apply Ascii.eqb_eq in E as ->.
    destruct (split sep s) as [|x r]; [done|].
    rewrite join_cons, IH. reflexivity.
  - destruct (split sep s) as [|x r]; [done|].
    destruct r as [|y r]; simpl in *; by rewrite <- IH.
Qed.

Lemma split_has_char sep s : Forall (λ x, has_char sep x = false) (split sep s).
Proof.
  induction s as [|c s IH]; simpl; [by repeat constructor|].
  destruct (Ascii.eqb c sep) eqn:E.
  - by constructor.
  - destruct (split sep s) as [|x r].
    + constructor; [simpl; by rewrite E | constructor].
    + inversion IH; subst. constructor; [|done]. simpl. by rewrite E.
Qed.

Lemma split_sep_free sep x : has_char sep x = false → split sep x = [x].
Proof.
  induction x as [|c x IH]; simpl; [done|].
  intros [E H]%orb_false_elim. by rewrite E, IH.
Qed.

Lemma split_app_sep sep x s :
  has_char sep x = false →
  split sep (x ++ String sep s) = x :: split sep s.
Proof.
  induction x as [|c x IH]; simpl.
  - intros _. by rewrite Ascii.eqb_refl.
  - intros [E H]%orb_false_elim. by rewrite E, IH.
Qed.

Lemma split_of_join sep l :
  l ≠ [] → Forall (λ x, has_char sep x = false) l → split sep (join sep l) = l.
Proof.
  induction l as [|x l IH]; [done|]. intros _ H.
  inversion H as [|? ? Hx Hl]; subst.
  destruct l as [|y l].
  - simpl. by apply split_sep_free.
  - rewrite join_cons, split_app_sep by done. f_equal. by apply IH.
Qed.

Lemma filter_negb_Forall (f : string → bool) (l : list string) :
  Forall (λ p, f p = false) (filter (λ p, negb (f p)) l).
Proof.
  induction l as [|x l IH]; [constructor|].
  rewrite filter_cons. destruct (f x) eqn:E; simpl; [done|].
  by constructor.
Qed.

Lemma filter_negb_id (f : string → bool) (l : list string) :
  Forall (λ p, f p = false) l → filter (λ p, negb (f p)) l = l.
Proof.
  induction 1 as [|x l Hx _ IH]; [done|].
  rewrite filter_cons, Hx. simpl. by rewrite IH.
Qed.

Lemma filter_keeps_Forall (Q : string → Prop) (f : string → bool) (l : list string) :
  Forall Q l → Forall Q (filter (λ p, negb (f p)) l).
Proof.
  induction 1 as [|x l Hx _ IH]; [constructor|].
  rewrite filter_cons. destruct (f x); simpl; [done|]. by constructor.
Qed.

(** X1: [_remove_googleapiclient]: without [PYTHONPATH] it raises [KeyError]
    and changes nothing.  Otherwise it rewrites that one variable: no entry
    of the new value names googleapiclient, the entries kept are the others
    in their order, and a value with no such entry is written back as it
    was. *)
Theorem remove_googleapiclient_filters_pythonpath (h : Host) (w : World) :
  (environ w !! "PYTHONPATH" = None →
   _remove_googleapiclient h w = (w, Raise (KeyError "PYTHONPATH")))
  ∧ (∀ s, environ w !! "PYTHONPATH" = Some s →
       ∃ s', _remove_googleapiclient h w
             = (with_environ (<["PYTHONPATH" := s']> (environ w)) w, Ok tt)
             ∧ Forall (λ p, names_googleapiclient p = false) (split (pathsep h) s')
             ∧ (filter (λ p, negb (names_googleapiclient p)) (split (pathsep h) s) ≠ [] →
                split (pathsep h) s'
                = filter (λ p, negb (names_googleapiclient p)) (split (pathsep h) s))
             ∧ (Forall (λ p, names_googleapiclient p = false) (split (pathsep h) s) →
                s' = s)).
Proof.
  split.
  - intros H. unfold _remove_googleapiclient, bind, gets. by rewrite H.
  - intros s H.
    exists (join (pathsep h)
              (filter (λ p, negb (names_googleapiclient p)) (split (pathsep h) s))).
    split; [|split; [|split]].
    + unfold _remove_googleapiclient, bind, gets. by rewrite H.
    + destruct (decide (filter (λ p, negb (names_googleapiclient p))
                          (split (pathsep h) s) = [])) as [E|E].
      * rewrite E. simpl. by repeat constructor.
      * rewrite split_of_join.
        -- apply filter_negb_Forall.
        -- done.
        -- apply filter_keeps_Forall, split_has_char.
    + intros Hne. apply split_of_join; [done|].
      apply filter_keeps_Forall, split_has_char.
    + intros Hall. rewrite filter_negb_id by done. apply join_of_split.
Qed.

Lemma remove_googleapiclient_filters_pythonpath_witness :
  ∃ s', _remove_googleapiclient maya2018 w_maya2018
        = (with_environ (<["PYTHONPATH" := s']> (environ w_maya2018)) w_maya2018, Ok tt)
        ∧ split ":" s' = ["/usr/lib"; "/home"].
Proof.
  destruct (proj2 (remove_googleapiclient_filters_pythonpath maya2018 w_maya2018)
              "/usr/lib:/maya/MASH/googleapiclient:/home" eq_refl)
    as (s' & E & _ & Hs & _).
  exists s'. split; [exact E|]. apply Hs. vm_compute. discriminate.
Defined.

(** * The host's main window *)

Lemma top_window_is_top win : is_top (top_window win).
Proof. induction win; simpl; done. Qed.

Lemma top_window_ancestor win : ancestor_or_self (top_window win) win.
Proof. induction win; simpl; [by left | by right]. Qed.

(** X2: [_acquire_host_main_window]: with an active window it stores, under
    ["vesselParent"], a window without parent that the active window
    reaches by its parent links, and writes nothing else; without one it
    raises [AttributeError] and changes nothing. *)
Theorem acquire_host_main_window_top (h : Host) (w : World) :
  (∀ win, app h = GuiApp (Some win) →
     ∃ top, _acquire_host_main_window h w
            = (with_state (insert "vesselParent" (VWindow top)) w, Ok tt)
            ∧ is_top top ∧ ancestor_or_self top win)
  ∧ (_is_headless h = true →
     _acquire_host_main_window h w = (w, Raise AttributeError)).
Proof.
  split.
  - intros win H. exists (top_window win).
    unfold _acquire_host_main_window. rewrite H.
    split; [done|]. split; [apply top_window_is_top | apply top_window_ancestor].
  - unfold _is_headless, _acquire_host_main_window.
    destruct (app h) as [| |[win|]]; simpl; done.
Qed.

Lemma acquire_host_main_window_top_witness :
  ∃ top, _acquire_host_main_window houdini_host w0
         = (with_state (insert "vesselParent" (VWindow top)) w0, Ok tt)
         ∧ is_top top.
Proof.
  destruct (proj1 (acquire_host_main_window_top houdini_host w0) _ eq_refl)
    as (top & E & Ht & _).
  exists top. split; [exact E | exact Ht].
Defined.

(** * The splash *)

Lemma ticks_S (n : nat) : ticks (S n) = animate (ticks n).
Proof. reflexivity. Qed.

Lemma ticks_count_label (n : nat) :
  sp_count (ticks n) = Nat.modulo (n + 1) 4
  ∧ sp_label (ticks n) = ("loading" ++ dots (Nat.modulo n 4))%string.
Proof.
  induction n as [|n [IHc IHl]]; [done|].
  rewrite ticks_S. unfold animate.
  cbn [sp_count sp_label]. rewrite IHc. split.
  - rewrite Nat.Div0.add_mod_idemp_l. f_equal. lia.
  - do 3 f_equal. lia.
Qed.

(** X3: the splash, from its construction on and after any number of timer
    ticks: the counter stays below 4, the label reads "loading" followed by
    at most three dots, and four ticks bring both back. *)
Theorem splash_animation_cycles (n : nat) :
  sp_count (ticks n) < 4
  ∧ (∃ k, k < 4 ∧ sp_label (ticks n) = ("loading" ++ dots k)%string)
  ∧ ticks (n + 4) = ticks n.
Proof.
  destruct (ticks_count_label n) as [Hc Hl].
  destruct (ticks_count_label (n + 4)) as [Hc4 Hl4].
  split; [rewrite Hc; apply Nat.mod_upper_bound; lia|].
  split.
  - exists (Nat.modulo n 4). split; [apply Nat.mod_upper_bound; lia | done].
  - assert (Hm : ∀ m, Nat.modulo (m + 4) 4 = Nat.modulo m 4).
    { intros m. replace (m + 4) with (m + 1 * 4) by lia. apply Nat.Div0.mod_add. }
    replace (n + 4 + 1) with (n + 1 + 4) in Hc4 by lia.
    rewrite Hm in Hc4, Hl4.
    destruct (ticks (n + 4)) as [c4 l4], (ticks n) as [c l].
    cbn [sp_count sp_label] in *. congruence.
Qed.

(** * The quit hook and the dispatch wrapper *)

(** X4: [_on_application_quit] never writes to the registry, and returns
    whenever killing the subprocess returns or raises [OSError], be a
    server registered or not. *)
Theorem on_application_quit_tolerant (o : Oracle) (w : World) :
  _state (after (_on_application_quit o) w) = _state w
  ∧ ((o_popen_kill o = Ok tt ∨ o_popen_kill o = Raise OSError) →
     (_state w !! "currentServer" = None ∨ ∃ s, _state w !! "currentServer" = Some (VServer s)) →
     snd (_on_application_quit o w) = Ok tt).
Proof.
  unfold after, _on_application_quit, try_except, bind, state_getitem, external,
    emit, modify, raise, ret.
  split.
  - destruct (_state w !! "currentServer") as [[]|]; simpl; try done;
      destruct (o_popen_kill o) as [[]|[]]; simpl; done.
  - intros [Hk|Hk] [Hs|[s Hs]]; rewrite Hs; simpl; try done; by rewrite Hk.
Qed.

Lemma on_application_quit_tolerant_witness :
  snd (_on_application_quit gui_gone w_running) = Ok tt.
Proof.
  apply (proj2 (on_application_quit_tolerant gui_gone w_running)).
  - right. reflexivity.
  - right. exists 0. reflexivity.
Defined.

(** X5: [_wrapper] is transparent for a call that returns, and for one that
    ends in a [BaseException] that is no [Exception]: the world and the
    outcome are those of the call: no kill, nothing printed. *)
Theorem wrapper_transparent (o : Oracle) (call : M value) (w w1 : World) (r : result value) :
  call w = (w1, r) →
  match r with Ok _ => True | Raise e => is_Exception e = false end →
  _wrapper o call w = (w1, r).
Proof.
  intros Hcall Hr. unfold _wrapper, try_except. rewrite Hcall.
  destruct r as [v|e]; [done|]. by rewrite Hr.
Qed.

Lemma wrapper_transparent_witness :
  _wrapper gui_gone (raise KeyboardInterrupt) w_running
  = (w_running, Raise KeyboardInterrupt).
Proof. apply (wrapper_transparent gui_gone _ w_running); reflexivity. Defined.

(** X6: registering a conforming wrapper and deregistering it again leaves no
    wrapper: the registry is the original one without its
    ["dispatchWrapper"] entry, and a further deregistration raises
    [KeyError] without effect. *)
Theorem register_deregister_dispatch_wrapper (wr : wrapper) (w : World) :
  conforming wr →
  ∃ w', (register_dispatch_wrapper wr;;; deregister_dispatch_wrapper) w = (w', Ok tt)
        ∧ _state w' = delete "dispatchWrapper" (_state w)
        ∧ dispatch_wrapper w' = (w', Ok VNone)
        ∧ deregister_dispatch_wrapper w' = (w', Raise (KeyError "dispatchWrapper")).
Proof.
  intros H%conforming_check.
  unfold register_dispatch_wrapper. rewrite H.
  unfold deregister_dispatch_wrapper, dispatch_wrapper, bind, state_setitem, modify,
    state_pop, state_get, gets, ret. simpl.
  rewrite lookup_insert_eq. simpl.
  eexists. split; [reflexivity|]. simpl.
  rewrite delete_insert_eq, lookup_delete_eq. done.
Qed.

Lemma register_deregister_dispatch_wrapper_witness :
  ∃ w', (register_dispatch_wrapper good_wrapper;;; deregister_dispatch_wrapper) w_running
        = (w', Ok tt)
        ∧ dispatch_wrapper w' = (w', Ok VNone).
Proof.
  destruct (register_deregister_dispatch_wrapper good_wrapper w_running)
    as (w' & E & _ & Hd & _).
  - exists "func", "args", "kwargs". repeat split.
  - exists w'. split; [exact E | exact Hd].
Defined.

(** * What the adapters do to their host *)

Ltac detected_facts D :=
  simpl in D;
  repeat match type of D with
         | _ && _ = true => apply andb_prop in D as [D ?]
         end;
  repeat match goal with
         | H : negb _ = true |- _ => apply negb_true_iff in H
         end.

Ltac run_adapter :=
  autounfold with py; unfold bind, modify, gets, raise, ret; simpl;
  repeat match goal with
         | H : mem _ _ = _ |- _ => rewrite H
         end; simpl.

(** X7: every adapter but Maya's needs an active window.  Detected with one,
    it returns having registered its own wrapper, connected the quit hook
    once and stored the top window; detected without one (a batch
    interpreter), it raises [AttributeError] after it has registered its
    wrapper, and sets no label. *)
Theorem adapter_needs_active_window (k : adapter) (h : Host) (w : World) :
  k ≠ Maya →
  detected k h = true →
  (∀ win, app h = GuiApp (Some win) →
     ∃ w', installer k h w = (w', Ok tt)
           ∧ _state w'
             = <["vesselParent" := VWindow (top_window win)]>
                 (<["dispatchWrapper" := VWrapper (threaded_wrapper (owner k))]> (_state w))
           ∧ trace w' = trace w ++ [setting_up k; EQuitHook])
  ∧ (_is_headless h = true →
     ∃ w', installer k h w = (w', Raise AttributeError)
           ∧ _state w'
             = <["dispatchWrapper" := VWrapper (threaded_wrapper (owner k))]> (_state w)
           ∧ settings w' = settings w).
Proof.
  intros Hk D. destruct k; [done|..]; detected_facts D; unfold _is_headless;
    (split; [intros win Ha | intros Hh]); unfold installer; run_adapter;
    destruct (app h) as [| |[win'|]]; simplify_eq; simpl in *; try done;
    (eexists; split; [reflexivity|]); simpl; rewrite <- ?app_assoc; done.
Qed.

Lemma adapter_needs_active_window_witness :
  ∃ w', installer Houdini hython w0 = (w', Raise AttributeError)
        ∧ _state w' !! "dispatchWrapper"
          = Some (VWrapper (threaded_wrapper "_install_houdini")).
Proof.
  destruct (proj2 (adapter_needs_active_window Houdini hython w0
                     ltac:(discriminate) eq_refl) eq_refl)
    as (w' & E & Hs & _).
  exists w'. split; [exact E|]. rewrite Hs. apply lookup_insert_eq.
Defined.

Lemma fold_widget_keeps (name : string) (l : list window) (acc : option window) :
  Forall (λ x, objectName x ≠ name) l →
  fold_left (λ acc win, if String.eqb (objectName win) name then Some win else acc) l acc
  = acc.
Proof.
  revert acc. induction l as [|x l IH]; intros acc H; [done|].
  inversion H as [|? ? Hx Hl]; subst. simpl.
  apply String.eqb_neq in Hx. rewrite Hx. by apply IH.
Qed.

Lemma widget_named_last (name : string) (l1 l2 : list window) (win : window) w :
  objectName win = name →
  Forall (λ x, objectName x ≠ name) l2 →
  widget_named name (l1 ++ win :: l2) w = (w, Ok win).
Proof.
  intros Hn Hl. unfold widget_named. rewrite fold_left_app. simpl.
  apply String.eqb_eq in Hn. rewrite Hn. by rewrite fold_widget_keeps.
Qed.

Lemma widget_named_missing (name : string) (l : list window) w :
  Forall (λ x, objectName x ≠ name) l →
  widget_named name l w = (w, Raise (KeyError name)).
Proof. intros H. unfold widget_named. by rewrite fold_widget_keeps. Qed.

(** X8: Maya's adapter.  In Maya 2018 without [PYTHONPATH] it raises
    [KeyError] before doing anything.  In any other version: headless
    (mayapy), it returns with its wrapper registered, no quit hook and no
    window stored; with an active window it connects the quit hook and
    stores the last top-level widget called MayaWindow, and raises
    [KeyError], wrapper registered and labels unset, when there is none. *)
Theorem maya_adapter_window (h : Host) (w : World) :
  detected Maya h = true →
  (maya_version h = "2018" → environ w !! "PYTHONPATH" = None →
   installer Maya h w = (w, Raise (KeyError "PYTHONPATH")))
  ∧ (maya_version h ≠ "2018" →
     (_is_headless h = true →
      ∃ w', installer Maya h w = (w', Ok tt)
            ∧ _state w'
              = <["dispatchWrapper" := VWrapper (threaded_wrapper (owner Maya))]> (_state w)
            ∧ trace w' = trace w ++ [setting_up Maya])
     ∧ (_is_headless h = false →
        (∀ l1 win l2,
           topLevelWidgets h = l1 ++ win :: l2 →
           objectName win = "MayaWindow" →
           Forall (λ x, objectName x ≠ "MayaWindow") l2 →
           ∃ w', installer Maya h w = (w', Ok tt)
                 ∧ _state w'
                   = <["vesselParent" := VWindow win]>
                       (<["dispatchWrapper" := VWrapper (threaded_wrapper (owner Maya))]>
                          (_state w))
                 ∧ trace w' = trace w ++ [setting_up Maya; EQuitHook])
        ∧ (Forall (λ x, objectName x ≠ "MayaWindow") (topLevelWidgets h) →
           ∃ w', installer Maya h w = (w', Raise (KeyError "MayaWindow"))
                 ∧ _state w'
                   = <["dispatchWrapper" := VWrapper (threaded_wrapper (owner Maya))]>
                       (_state w)
                 ∧ settings w' = settings w))).
Proof.
  intros D. simpl in D. split.
  - intros Hv He. unfold installer, _install_maya, import, bind at 1. rewrite D.
    cbv beta iota. unfold ret at 1. cbv beta iota.
    unfold bind at 1. rewrite Hv, String.eqb_refl.
    unfold _remove_googleapiclient, bind, gets. by rewrite He.
  - intros Hv%String.eqb_neq. split; [|intros H; split].
    + intros Hh. unfold installer, _install_maya, import. rewrite D, Hv, Hh.
      unfold register_dispatch_wrapper, set_labels, emit, state_setitem,
        bind, modify, ret. simpl.
      eexists. split; [reflexivity|]. done.
    + intros l1 win l2 Hl Hn Hf.
      unfold installer, _install_maya, import. rewrite D, Hv, H.
      unfold connect_quit. unfold _is_headless in H.
      destruct (app h) as [| |[a|]]; try done.
      unfold register_dispatch_wrapper, set_labels, emit, state_setitem,
        bind, modify, ret. simpl.
      rewrite Hl, (widget_named_last _ _ _ _ _ Hn Hf).
      eexists. split; [reflexivity|]. simpl. by rewrite <- app_assoc.
    + intros Hf.
      unfold installer, _install_maya, import. rewrite D, Hv, H.
      unfold connect_quit. unfold _is_headless in H.
      destruct (app h) as [| |[a|]]; try done.
      unfold register_dispatch_wrapper, set_labels, emit, state_setitem,
        bind, modify, ret. simpl.
      rewrite (widget_named_missing _ _ _ Hf).
      eexists. split; [reflexivity|]. done.
Qed.

Lemma maya_adapter_window_witness :
  installer Maya maya2018 w0 = (w0, Raise (KeyError "PYTHONPATH")).
Proof.
  apply (proj1 (maya_adapter_window maya2018 w0 eq_refl)); reflexivity.
Defined.

(** * Labels *)

Ltac labels_side Hne :=
  intros;
  repeat match goal with H : _ ∧ _ |- _ => destruct H end;
  simpl in *;
  repeat (case_match; simpl in *);
  repeat match goal with
         | H : String.eqb ?a ?b = true |- _ => apply String.eqb_eq in H
         end;
  simpl in *; try done; try (split; congruence); try congruence.

Lemma operation_keeps_context_label (x : operation) (c d : string) (w : World) :
  c ≠ d →
  ContextLabel (settings w) = c ∧ ContextLabelDefault (settings w) = d →
  ContextLabel (settings (run_operation w x)) = c
  ∧ ContextLabelDefault (settings (run_operation w x)) = d.
Proof.
  intros Hne Hw.
  destruct x; unfold run_operation;
    apply (preserves_after
             (λ w, ContextLabel (settings w) = c ∧ ContextLabelDefault (settings w) = d));
    try done; preserves_auto ltac:(labels_side Hne).
Qed.

Lemma operation_keeps_window_title (x : operation) (c d : string) (w : World) :
  c ≠ d →
  WindowTitle (settings w) = c ∧ WindowTitleDefault (settings w) = d →
  WindowTitle (settings (run_operation w x)) = c
  ∧ WindowTitleDefault (settings (run_operation w x)) = d.
Proof.
  intros Hne Hw.
  destruct x; unfold run_operation;
    apply (preserves_after
             (λ w, WindowTitle (settings w) = c ∧ WindowTitleDefault (settings w) = d));
    try done; preserves_auto ltac:(labels_side Hne).
Qed.

Lemma run_keeps_context_label (ops : list operation) (c d : string) (w : World) :
  c ≠ d →
  ContextLabel (settings w) = c ∧ ContextLabelDefault (settings w) = d →
  ContextLabel (settings (run ops w)) = c
  ∧ ContextLabelDefault (settings (run ops w)) = d.
Proof.
  intros Hne. revert w. induction ops as [|x ops IH]; intros w Hw; [done|].
  simpl. by apply IH, operation_keeps_context_label.
Qed.

Lemma run_keeps_window_title (ops : list operation) (c d : string) (w : World) :
  c ≠ d →
  WindowTitle (settings w) = c ∧ WindowTitleDefault (settings w) = d →
  WindowTitle (settings (run ops w)) = c
  ∧ WindowTitleDefault (settings (run ops w)) = d.
Proof.
  intros Hne. revert w. induction ops as [|x ops IH]; intros w Hw; [done|].
  simpl. by apply IH, operation_keeps_window_title.
Qed.

(** X9: labels are first-come: through any sequence of operations, a context
    label or a window title that differs from its default sentinel is never
    overwritten (by no adapter, that is), and the sentinel stays what it
    is. *)
Theorem customised_labels_kept (ops : list operation) (w : World) :
  (ContextLabel (settings w) ≠ ContextLabelDefault (settings w) →
   ContextLabel (settings (run ops w)) = ContextLabel (settings w)
   ∧ ContextLabelDefault (settings (run ops w)) = ContextLabelDefault (settings w))
  ∧ (WindowTitle (settings w) ≠ WindowTitleDefault (settings w) →
     WindowTitle (settings (run ops w)) = WindowTitle (settings w)
     ∧ WindowTitleDefault (settings (run ops w)) = WindowTitleDefault (settings w)).
Proof.
  split; intros Hne.
  - by apply run_keeps_context_label.
  - by apply run_keeps_window_title.
Qed.

Lemma customised_labels_kept_witness :
  ContextLabel (settings (run [OpInstall nuke_host] w_houdini))
  = ContextLabel (settings w_houdini).
Proof.
  apply (proj1 (customised_labels_kept [OpInstall nuke_host] w_houdini)).
  vm_compute. discriminate.
Defined.

(** * Install and uninstall, continued *)

(** X10: an [install()] that fails in the adapter chain has registered the two
    callbacks already and has not set the [installed] flag: the next
    [install()] will not uninstall first, and registers them once more. *)
Theorem failed_install_keeps_callbacks (h : Host) (w w1 : World) (e : exn) :
  registered "installed" w = false →
  install h w = (w1, Raise e) →
  registrations "instanceToggled" _toggle_instance w1
  = S (registrations "instanceToggled" _toggle_instance w)
  ∧ registrations "pluginToggled" _toggle_plugin w1
    = S (registrations "pluginToggled" _toggle_plugin w)
  ∧ registered "installed" w1 = false.
Proof.
  intros Hf E. rewrite install_not_installed in E by done.
  destruct (install_rest_spec _ _ _ _ E) as (Hi & Hp & _).
  split; [done|]. split; [done|].
  unfold registered in *. by rewrite (install_rest_raises _ _ _ _ E).
Qed.

Lemma failed_install_keeps_callbacks_witness :
  registrations "instanceToggled" _toggle_instance
    (after (install hython) (after (install hython) w0)) = 2.
Proof.
  assert (E1 : install hython w0 = (after (install hython) w0, Raise AttributeError))
    by (vm_compute; reflexivity).
  destruct (failed_install_keeps_callbacks hython w0 _ _ eq_refl E1) as (H1 & _ & Hf).
  assert (E2 : install hython (after (install hython) w0)
               = (after (install hython) (after (install hython) w0), Raise AttributeError))
    by (vm_compute; reflexivity).
  destruct (failed_install_keeps_callbacks hython _ _ _ Hf E2) as (H2 & _).
  rewrite H2, H1. reflexivity.
Defined.

Lemma remove_first_unregistered (f : handler) (l : list handler) :
  List.length (filter (λ x, x = f) l) = 0 → remove_first f l = None.
Proof.
  induction l as [|y l IH]; simpl; [done|].
  rewrite filter_cons. destruct (decide (y = f)); simpl; [done|].
  intros H. by rewrite IH.
Qed.

Lemma deregister_unregistered name f w :
  registrations name f w = 0 →
  deregister_callback name f w = (w, Raise ValueError)
  ∨ deregister_callback name f w = (w, Raise (KeyError name)).
Proof.
  unfold registrations, deregister_callback.
  destruct (callbacks w !! name) as [l|]; simpl; [|by right].
  intros H. left. by rewrite remove_first_unregistered.
Qed.

Lemma uninstall_state w : _state (after uninstall w) = _state w.
Proof.
  apply (preserves_after (λ w', _state w' = _state w)); [|done].
  preserves_auto callbacks_side.
Qed.

(** X11: [uninstall()] never writes to the registry: the [installed] flag and
    the dispatch wrapper survive it.  So after [install()] and
    [uninstall()], both returning, the callbacks are gone but the flag is
    still set, and a further [install()] starts by uninstalling again and
    raises out of the callback registry, having registered nothing. *)
Theorem uninstall_keeps_installed_flag (h : Host) (w w1 : World) :
  coherent w →
  install h w = (w1, Ok tt) →
  ∃ w2, uninstall w1 = (w2, Ok tt)
        ∧ _state w2 = _state w1
        ∧ registered "installed" w2 = true
        ∧ registrations "instanceToggled" _toggle_instance w2 = 0
        ∧ registrations "pluginToggled" _toggle_plugin w2 = 0
        ∧ ∀ h', ∃ e, install h' w2 = (log already_installed w2, Raise e)
                     ∧ (e = ValueError ∨ e = KeyError "instanceToggled").
Proof.
  intros Hw E.
  destruct (install_coherent _ _ _ _ Hw E) as (Hi & Hp & Ho & _).
  destruct (uninstall_spec w1) as (w2 & Eu & Su & _ & Ui & Up); [lia | lia |].
  assert (Hk : registered "installed" w2 = true).
  { unfold registered. rewrite Su. by apply Ho. }
  exists w2. split; [done|]. split; [done|]. split; [done|].
  split; [lia|]. split; [lia|].
  intros h'. rewrite install_installed by done.
  assert (Hz : registrations "instanceToggled" _toggle_instance
                 (log already_installed w2) = 0).
  { change (registrations "instanceToggled" _toggle_instance w2 = 0). lia. }
  unfold bind at 1. unfold bind at 1.
  change (emit already_installed w2) with (log already_installed w2, Ok tt).
  cbv beta iota. unfold uninstall, uninstall_callbacks. unfold bind at 1. unfold bind at 1.
  destruct (deregister_unregistered _ _ _ Hz) as [-> | ->]; eauto.
Qed.

Lemma uninstall_keeps_installed_flag_witness :
  ∃ w2, uninstall (after (install nuke_host) w0) = (w2, Ok tt)
        ∧ registered "installed" w2 = true
        ∧ ∃ e, install nuke_host w2 = (log already_installed w2, Raise e).
Proof.
  assert (Hc : coherent w0) by (left; repeat split; reflexivity).
  assert (E : install nuke_host w0 = (after (install nuke_host) w0, Ok tt))
    by (vm_compute; reflexivity).
  destruct (uninstall_keeps_installed_flag nuke_host w0 _ Hc E)
    as (w2 & Eu & _ & Hk & _ & _ & Hi).
  exists w2. split; [exact Eu|]. split; [exact Hk|].
  destruct (Hi nuke_host) as (e & He & _). exists e. exact He.
Defined.

(** X12: once set, the [installed] flag is never cleared, whatever is called. *)
Theorem installed_flag_never_cleared (ops : list operation) (w : World) :
  registered "installed" w = true → registered "installed" (run ops w) = true.
Proof.
  revert w. induction ops as [|x ops IH]; intros w Hw; [done|].
  simpl. apply IH. destruct x; unfold run_operation;
    apply (preserves_after (λ w, registered "installed" w = true)); try done;
    preserves_auto installed_side.
Qed.

Lemma installed_flag_never_cleared_witness :
  registered "installed"
    (run [OpUninstall; OpPublish gui_gone; OpDeregisterDispatchWrapper] w_running_nuke)
  = true.
Proof. apply installed_flag_never_cleared. reflexivity. Defined.

(** X13: from process start on, a registered server always comes with the
    [installed] flag set. *)
Theorem registered_server_is_installed (ops : list operation) cfg env :
  server_implies_installed (run ops (initial_world cfg env)).
Proof. apply run_server_implies_installed. Qed.

(** * Starting a session *)

Lemma auto_install_ok_installed h w w1 :
  auto_install h w = (w1, Ok tt) → registered "installed" w1 = true.
Proof.
  intros E. rewrite auto_install_unfold in E.
  destruct (registered "installed" w) eqn:H.
  - by injection E as <-.
  - rewrite install_not_installed in E by done.
    destruct (install_rest_spec _ _ _ _ E) as (_ & _ & Ho & _). auto.
Qed.

Lemma show_new_starts h o targets b w :
  starts o →
  ∃ w', show_new h o targets b w
        = (w', match o_listen o with
               | Ok _ => Ok (VServer (new_server_id h w))
               | Raise e => Raise e
               end)
        ∧ _state w'
          = <["currentProxy" := VProxy (S (new_server_id h w))]>
              (<["currentServer" := VServer (new_server_id h w)]> (_state w))
        ∧ servers w' = <[new_server_id h w := mkServer b targets]> (servers w)
        ∧ proxies w'
          = <[S (new_server_id h w) := mkProxy (new_server_id h w) b (_is_headless h)]>
              (proxies w)
        ∧ next_id w' = S (S (new_server_id h w))
        ∧ settings w' = settings w.
Proof.
  intros (Hsv & Hsr & Hpx & Hsh).
  unfold show_new, new_server_id.
  destruct (_is_headless h); cbv zeta; simpl negb; cbv iota;
    unfold call_on_shown, register_callback, fresh, proxy_call, state_setitem,
      bind, try_except, external, emit, modify, gets, raise, ret;
    rewrite Hsv, Hsr, Hpx; simpl; rewrite Hsh; simpl;
    destruct (o_listen o) as [[]|e]; simpl;
    (eexists; split; [reflexivity|]); simpl; done.
Qed.

(** X14: with no server registered and every constructor returning, [show()]
    creates one server with the requested targets and modality, and one
    proxy bound to it, stores the two together and only then listens: the
    session is registered whether [listen()] returns, and then [show()]
    returns the server, or raises. *)
Theorem show_starts_session h o targets modal w w1 :
  auto_install h w = (w1, Ok tt) →
  registered "currentServer" w = false →
  starts o →
  ∃ w', show h o targets modal w
        = (w', match o_listen o with
               | Ok _ => Ok (VServer (new_server_id h w))
               | Raise e => Raise e
               end)
        ∧ _state w'
          = <["currentProxy" := VProxy (S (new_server_id h w))]>
              (<["currentServer" := VServer (new_server_id h w)]> (_state w1))
        ∧ servers w'
          = <[new_server_id h w := mkServer (resolve_modal modal w) targets]> (servers w)
        ∧ proxies w'
          = <[S (new_server_id h w)
                := mkProxy (new_server_id h w) (resolve_modal modal w) (_is_headless h)]>
              (proxies w)
        ∧ current_server w' = (w', Ok (VServer (new_server_id h w))).
Proof.
  intros Hinst Hs Hst.
  pose proof (auto_install_currentServer h _ _ _ _ Hinst eq_refl) as Hs1.
  destruct (auto_install_objects h _ _ _ _ _ _ Hinst (conj eq_refl (conj eq_refl eq_refl)))
    as (Hsv & Hpx & Hn).
  simpl in Hs1.
  rewrite show_unfold. unfold bind at 1. rewrite Hinst.
  rewrite show_session_unregistered by (unfold registered in *; by rewrite Hs1).
  destruct (show_new_starts h o targets (resolve_modal modal w) w1 Hst)
    as (w' & E & St & Sv & Px & _).
  assert (Hid : new_server_id h w1 = new_server_id h w)
    by (unfold new_server_id; by rewrite Hn).
  rewrite Hid in *. exists w'. split; [exact E|].
  rewrite St, Sv, Px, Hsv, Hpx. repeat split.
  unfold current_server, state_get, gets. rewrite St.
  rewrite lookup_insert_ne, lookup_insert_eq by done. done.
Qed.

Lemma show_starts_session_witness :
  ∃ w', show nuke_host all_ok ["default"] (Some true) w0 = (w', Ok (VServer 1))
        ∧ servers w' !! 1 = Some (mkServer true ["default"])
        ∧ proxies w' !! 2 = Some (mkProxy 1 true false).
Proof.
  destruct (show_starts_session nuke_host all_ok ["default"] (Some true) w0
              (after (auto_install nuke_host) w0))
    as (w' & E & _ & Hsv & Hpx & _).
  - vm_compute. reflexivity.
  - reflexivity.
  - repeat split.
  - exists w'. split; [exact E|]. rewrite Hsv, Hpx.
    split; apply lookup_insert_eq.
Defined.

Lemma show_new_proxy_fails h o targets b w e :
  proxy_fails o e →
  ∃ w', show_new h o targets b w = (w', Raise e)
        ∧ _state w' = _state w
        ∧ servers w' = <[new_server_id h w := mkServer b targets]> (servers w)
        ∧ trace w'
          = trace w
            ++ (if _is_headless h then [] else [ESplashShow (next_id w)])
            ++ [EService; EServerNew (new_server_id h w)]
            ++ match o_proxy o with
               | Ok _ => [EProxyNew (S (new_server_id h w))]
               | Raise _ => []
               end
        ∧ registrations "pyblishQmlShown" (on_shown (next_id w)) w'
          = registrations "pyblishQmlShown" (on_shown (next_id w)) w
            + (if _is_headless h then 0 else 1).
Proof.
  intros (Hsv & Hsr & Hpx).
  unfold show_new, new_server_id.
  destruct (_is_headless h); cbv zeta; simpl negb; cbv iota.
  - unfold fresh, proxy_call, state_setitem,
      bind, try_except, external, emit, modify, gets, raise, ret.
    rewrite Hsv, Hsr.
    destruct Hpx as [Hpx|[Hpx Hsh]]; rewrite Hpx; simpl; rewrite ?Hsh; simpl;
      (eexists; split; [reflexivity|]); simpl; rewrite <- ?app_assoc;
      repeat split; try done; unfold registrations; simpl; lia.
  - pose proof (registrations_register "pyblishQmlShown" (on_shown (next_id w))
                  "pyblishQmlShown" (on_shown (next_id w)) w) as Hr.
    rewrite decide_True in Hr by done.
    unfold after, register_callback, modify in Hr. simpl in Hr.
    unfold register_callback, fresh, proxy_call, state_setitem,
      bind, try_except, external, emit, modify, gets, raise, ret.
    rewrite Hsv, Hsr.
    destruct Hpx as [Hpx|[Hpx Hsh]]; rewrite Hpx; simpl; rewrite ?Hsh; simpl;
      (eexists; split; [reflexivity|]); simpl; rewrite <- ?app_assoc;
      repeat split; try done; exact Hr.
Qed.

(** X15: when the server is up but its proxy cannot be built or shown, the
    exception leaves [show()], whatever its class, and no session is
    registered: the registry is as the automatic install left it.  The
    server object exists all the same, nothing kills it, and outside
    headless mode the splash stays open with its callback registered. *)
Theorem show_proxy_failure_registers_nothing h o targets modal w w1 e :
  auto_install h w = (w1, Ok tt) →
  registered "currentServer" w = false →
  proxy_fails o e →
  ∃ w', show h o targets modal w = (w', Raise e)
        ∧ _state w' = _state w1
        ∧ servers w'
          = <[new_server_id h w := mkServer (resolve_modal modal w) targets]> (servers w)
        ∧ trace w'
          = trace w1
            ++ (if _is_headless h then [] else [ESplashShow (next_id w)])
            ++ [EService; EServerNew (new_server_id h w)]
            ++ match o_proxy o with
               | Ok _ => [EProxyNew (S (new_server_id h w))]
               | Raise _ => []
               end
        ∧ registrations "pyblishQmlShown" (on_shown (next_id w)) w'
          = registrations "pyblishQmlShown" (on_shown (next_id w)) w1
            + (if _is_headless h then 0 else 1).
Proof.
  intros Hinst Hs Hf.
  pose proof (auto_install_currentServer h _ _ _ _ Hinst eq_refl) as Hs1.
  destruct (auto_install_objects h _ _ _ _ _ _ Hinst (conj eq_refl (conj eq_refl eq_refl)))
    as (Hsv & _ & Hn).
  simpl in Hs1.
  rewrite show_unfold. unfold bind at 1. rewrite Hinst.
  rewrite show_session_unregistered by (unfold registered in *; by rewrite Hs1).
  destruct (show_new_proxy_fails h o targets (resolve_modal modal w) w1 e Hf)
    as (w' & E & St & Sv & Tr & Rg).
  assert (Hid : new_server_id h w1 = new_server_id h w)
    by (unfold new_server_id; by rewrite Hn).
  rewrite Hid, Hn in *. exists w'. rewrite Sv, Hsv. done.
Qed.

Lemma show_proxy_failure_registers_nothing_witness :
  ∃ w', show nuke_host no_proxy [] None w0 = (w', Raise IOError)
        ∧ _state w' !! "currentServer" = None
        ∧ servers w' !! 1 = Some (mkServer false []).
Proof.
  destruct (show_proxy_failure_registers_nothing nuke_host no_proxy [] None w0
              (after (auto_install nuke_host) w0) IOError)
    as (w' & E & St & Sv & _).
  - vm_compute. reflexivity.
  - reflexivity.
  - split; [reflexivity|]. split; [reflexivity|]. left. reflexivity.
  - exists w'. split; [exact E|]. rewrite St, Sv. split; [|apply lookup_insert_eq].
    vm_compute. reflexivity.
Defined.

(** * Delegating to a registered session *)

Ltac delegate_cases :=
  unfold try_except, bind, state_getitem, proxy_update, proxy_call, external,
    emit, modify, gets, raise, ret, state_pop.

(** X16: with a healthy session registered, [publish()] and [validate()] only
    talk to the proxy: they refresh its view of the server, send their
    command and return; the registry and the server are untouched and
    nothing is shown. *)
Theorem publish_validate_delegate (o : Oracle) (w : World) (s p : nat) :
  _state w !! "currentServer" = Some (VServer s) →
  _state w !! "currentProxy" = Some (VProxy p) →
  o_update o = Ok tt →
  (o_publish o = Ok tt →
   ∃ w', publish o w = (w', Ok tt)
         ∧ _state w' = _state w ∧ servers w' = servers w
         ∧ trace w' = trace w ++ [EProxyUpdate p s; EProxyPublish p])
  ∧ (o_validate o = Ok tt →
     ∃ w', validate o w = (w', Ok tt)
           ∧ _state w' = _state w ∧ servers w' = servers w
           ∧ trace w' = trace w ++ [EProxyUpdate p s; EProxyValidate p]).
Proof.
  intros Hs Hp Hu. split; intros Hc.
  - unfold publish, bind at 1, state_get, gets. cbv beta iota. rewrite Hs. simpl.
    unfold bind at 1, state_getitem at 1. rewrite Hs.
    delegate_cases. rewrite Hp, Hu, Hc. simpl.
    destruct (servers w !! s); simpl;
      (eexists; split; [reflexivity|]); simpl; by rewrite <- app_assoc.
  - unfold validate, bind at 1, state_get, gets. cbv beta iota. rewrite Hs. simpl.
    unfold bind at 1, state_getitem at 1. rewrite Hs.
    delegate_cases. rewrite Hp, Hu, Hc. simpl.
    destruct (servers w !! s); simpl;
      (eexists; split; [reflexivity|]); simpl; by rewrite <- app_assoc.
Qed.

Lemma publish_validate_delegate_witness :
  ∃ w', publish all_ok w_running = (w', Ok tt)
        ∧ trace w' = trace w_running ++ [EProxyUpdate 1 0; EProxyPublish 1].
Proof.
  destruct (proj1 (publish_validate_delegate all_ok w_running 0 1
                     eq_refl eq_refl eq_refl) eq_refl)
    as (w' & E & _ & _ & Ht).
  exists w'. split; [exact E | exact Ht].
Defined.

Lemma show_existing_raises o b w s p e :
  _state w !! "currentServer" = Some (VServer s) →
  _state w !! "currentProxy" = Some (VProxy p) →
  is_IOError_or_KeyError e = false →
  o_update o = Raise e ∨ (o_update o = Ok tt ∧ o_show o = Raise e) →
  ∃ w', show_existing o b w = (w', Raise e)
        ∧ _state w' = _state w ∧ next_id w' = next_id w.
Proof.
  intros Hs Hp He Hf.
  unfold show_existing, bind at 1, state_getitem at 1. rewrite Hs.
  unfold set_modal, bind at 1, modify.
  delegate_cases. simpl. rewrite Hp.
  destruct Hf as [Hu|[Hu Hc]]; rewrite Hu; simpl; rewrite ?Hc; simpl; rewrite ?He;
    repeat case_match; simpl; eauto.
Qed.

(** X17: only the I/O and missing-key exceptions count as a stale session.
    An exception of the registered proxy that is neither [IOError] nor
    [KeyError], nor [OSError] (which Python 3 does not tell from
    [IOError]), leaves [publish()], [validate()] and [show()] as it is, and
    the session stays registered: nothing is forgotten and [show()] starts
    no new session. *)
Theorem other_proxy_failures_propagate (o : Oracle) (w : World) (s p : nat) (e : exn) :
  _state w !! "currentServer" = Some (VServer s) →
  _state w !! "currentProxy" = Some (VProxy p) →
  is_IOError_or_KeyError e = false →
  e ≠ OSError →
  (o_update o = Raise e ∨ (o_update o = Ok tt ∧ o_publish o = Raise e) →
   ∃ w', publish o w = (w', Raise e) ∧ _state w' = _state w)
  ∧ (o_update o = Raise e ∨ (o_update o = Ok tt ∧ o_validate o = Raise e) →
     ∃ w', validate o w = (w', Raise e) ∧ _state w' = _state w)
  ∧ (o_update o = Raise e ∨ (o_update o = Ok tt ∧ o_show o = Raise e) →
     ∀ h targets modal w1,
       auto_install h w = (w1, Ok tt) →
       ∃ w', show h o targets modal w = (w', Raise e)
             ∧ _state w' = _state w1 ∧ next_id w' = next_id w).
Proof.
  intros Hs Hp He _. split; [|split]; intros Hf.
  - unfold publish, bind at 1, state_get, gets. cbv beta iota. rewrite Hs. simpl.
    unfold bind at 1, state_getitem at 1. rewrite Hs.
    delegate_cases. rewrite Hp.
    destruct Hf as [Hu|[Hu Hc]]; rewrite Hu; simpl; rewrite ?Hc; simpl; rewrite ?He;
      repeat case_match; simpl; eauto.
  - unfold validate, bind at 1, state_get, gets. cbv beta iota. rewrite Hs. simpl.
    unfold bind at 1, state_getitem at 1. rewrite Hs.
    delegate_cases. rewrite Hp.
    destruct Hf as [Hu|[Hu Hc]]; rewrite Hu; simpl; rewrite ?Hc; simpl; rewrite ?He;
      repeat case_match; simpl; eauto.
  - intros h targets modal w1 Hinst.
    pose proof (auto_install_currentServer h _ _ _ _ Hinst Hs) as Hs1.
    pose proof (auto_install_currentProxy h _ _ _ _ Hinst Hp) as Hp1.
    destruct (auto_install_objects h _ _ _ _ _ _ Hinst
                (conj eq_refl (conj eq_refl eq_refl))) as (_ & _ & Hn).
    simpl in Hs1, Hp1.
    destruct (show_existing_raises o (resolve_modal modal w) w1 s p e Hs1 Hp1 He Hf)
      as (w' & E & St & Nx).
    exists w'. rewrite show_unfold. unfold bind at 1. rewrite Hinst.
    rewrite show_session_registered by (unfold registered; by rewrite Hs1).
    rewrite E. split; [done|]. split; [done|]. congruence.
Qed.

Lemma other_proxy_failures_propagate_witness :
  ∃ w', publish gui_broken w_running = (w', Raise RuntimeError)
        ∧ _state w' = _state w_running.
Proof.
  apply (proj1 (other_proxy_failures_propagate gui_broken w_running 0 1 RuntimeError
                  eq_refl eq_refl eq_refl ltac:(discriminate))).
  right. split; reflexivity.
Defined.

(** X18: [show()] twice: the second call, finding the session of the first
    healthy, returns the same server and creates nothing; it gives the
    server its own modality, and its targets are ignored: the server keeps
    those of the first call. *)
Theorem second_show_reuses_session h o targets modal w w1 h2 o2 targets2 modal2 :
  auto_install h w = (w1, Ok tt) →
  registered "currentServer" w = false →
  starts o →
  o_listen o = Ok tt →
  o_update o2 = Ok tt →
  o_show o2 = Ok tt →
  ∃ w' w'',
    show h o targets modal w = (w', Ok (VServer (new_server_id h w)))
    ∧ show h2 o2 targets2 modal2 w' = (w'', Ok (VServer (new_server_id h w)))
    ∧ _state w'' = _state w'
    ∧ next_id w'' = next_id w'
    ∧ servers w''
      = <[new_server_id h w := mkServer (resolve_modal modal2 w') targets]> (servers w').
Proof.
  intros Hinst Hs Hst Hl Hu Hsh.
  pose proof (auto_install_currentServer h _ _ _ _ Hinst eq_refl) as Hs1.
  destruct (auto_install_objects h _ _ _ _ _ _ Hinst (conj eq_refl (conj eq_refl eq_refl)))
    as (Hsv & Hpx & Hn).
  simpl in Hs1.
  pose proof (auto_install_ok_installed _ _ _ Hinst) as Hi1.
  destruct (show_new_starts h o targets (resolve_modal modal w) w1 Hst)
    as (w' & E & St & Sv & Px & Nx & _).
  assert (Hid : new_server_id h w1 = new_server_id h w)
    by (unfold new_server_id; by rewrite Hn).
  rewrite Hid, Hl in *.
  assert (E1 : show h o targets modal w = (w', Ok (VServer (new_server_id h w)))).
  { rewrite show_unfold. unfold bind at 1. rewrite Hinst.
    by rewrite show_session_unregistered by (unfold registered in *; by rewrite Hs1). }
  assert (Hs' : _state w' !! "currentServer" = Some (VServer (new_server_id h w))).
  { rewrite St. by rewrite lookup_insert_ne, lookup_insert_eq by done. }
  assert (Hp' : _state w' !! "currentProxy" = Some (VProxy (S (new_server_id h w)))).
  { rewrite St. by rewrite lookup_insert_eq. }
  assert (Hi' : registered "installed" w' = true).
  { unfold registered in *. rewrite St.
    by rewrite !lookup_insert_ne by done. }
  assert (Hsrv : servers w' !! new_server_id h w
                 = Some (mkServer (resolve_modal modal w) targets)).
  { rewrite Sv. apply lookup_insert_eq. }
  exists w'. eexists. split; [exact E1|].
  rewrite show_unfold. unfold bind at 1.
  rewrite auto_install_unfold, Hi'.
  rewrite show_session_registered by (unfold registered; by rewrite Hs').
  rewrite (show_existing_healthy _ _ _ _ _ _ Hs' Hp' Hsrv Hu Hsh).
  split; [reflexivity|]. done.
Qed.

Lemma second_show_reuses_session_witness :
  ∃ w' w'',
    show nuke_host all_ok ["a"] (Some true) w0 = (w', Ok (VServer 1))
    ∧ show nuke_host all_ok ["b"] (Some false) w' = (w'', Ok (VServer 1))
    ∧ servers w'' !! 1 = Some (mkServer false ["a"]).
Proof.
  destruct (second_show_reuses_session nuke_host all_ok ["a"] (Some true) w0
              (after (auto_install nuke_host) w0) nuke_host all_ok ["b"] (Some false))
    as (w' & w'' & E1 & E2 & _ & _ & Hsv).
  - vm_compute. reflexivity.
  - reflexivity.
  - repeat split.
  - reflexivity.
  - reflexivity.
  - reflexivity.
  - exists w', w''. split; [exact E1|]. split; [exact E2|].
    rewrite Hsv. apply lookup_insert_eq.
Defined.

(** * The shown callback *)

(** X19: [on_shown], while registered: it closes the splash, or finds it
    closed already, removes its own registration and returns, the registry
    untouched.  Once it is no longer registered, a further call raises out
    of the callback registry. *)
Theorem on_shown_deregisters_itself (o : Oracle) (n : nat) (w : World) :
  (0 < registrations "pyblishQmlShown" (on_shown n) w →
   ∃ w', call_on_shown o n w = (w', Ok tt)
         ∧ S (registrations "pyblishQmlShown" (on_shown n) w')
           = registrations "pyblishQmlShown" (on_shown n) w
         ∧ _state w' = _state w
         ∧ trace w' = trace w ++ (if o_splash_closed o then [] else [ESplashClose n]))
  ∧ (registrations "pyblishQmlShown" (on_shown n) w = 0 →
     ∃ w' e, call_on_shown o n w = (w', Raise e)
             ∧ (e = ValueError ∨ e = KeyError "pyblishQmlShown")).
Proof.
  split; intros H.
  - unfold call_on_shown, bind, try_except, emit, modify, raise, ret.
    destruct (o_splash_closed o); simpl.
    + destruct (registrations_deregister _ _ _ H) as (w' & E & St & Tr & Rg).
      rewrite E. exists w'. split; [done|].
      specialize (Rg "pyblishQmlShown" (on_shown n)).
      rewrite decide_True in Rg by done.
      rewrite St, Tr, app_nil_r. split; [lia | done].
    + destruct (registrations_deregister "pyblishQmlShown" (on_shown n)
                  (log (ESplashClose n) w) H) as (w' & E & St & Tr & Rg).
      rewrite E. exists w'. split; [done|].
      specialize (Rg "pyblishQmlShown" (on_shown n)).
      rewrite decide_True in Rg by done.
      change (registrations "pyblishQmlShown" (on_shown n) (log (ESplashClose n) w))
        with (registrations "pyblishQmlShown" (on_shown n) w) in Rg.
      rewrite St, Tr. split; [lia | done].
  - unfold call_on_shown, bind, try_except, emit, modify, raise, ret.
    destruct (o_splash_closed o); simpl.
    + destruct (deregister_unregistered _ _ _ H) as [-> | ->]; eauto.
    + destruct (deregister_unregistered "pyblishQmlShown" (on_shown n)
                  (log (ESplashClose n) w) H) as [-> | ->]; eauto.
Qed.

Lemma on_shown_deregisters_itself_witness :
  ∃ w', call_on_shown all_ok 0 w_running_nuke = (w', Ok tt)
        ∧ S (registrations "pyblishQmlShown" (on_shown 0) w')
          = registrations "pyblishQmlShown" (on_shown 0) w_running_nuke.
Proof.
  destruct (proj1 (on_shown_deregisters_itself all_ok 0 w_running_nuke))
    as (w' & E & Hr & _).
  - vm_compute. lia.
  - exists w'. split; [exact E | exact Hr].
Defined.

(** * Why install needs a coherent state *)

Lemma deregister_ok_registered name f w w' :
  deregister_callback name f w = (w', Ok tt) → 0 < registrations name f w.
Proof.
  unfold deregister_callback, registrations.
  destruct (callbacks w !! name) as [l|]; [|done].
  destruct (remove_first f l) as [l'|] eqn:E; [|done]. intros _. simpl.
  rewrite (remove_first_count _ f _ _ E). rewrite decide_True by done. lia.
Qed.

Lemma uninstall_ok_registered w wu :
  uninstall w = (wu, Ok tt) →
  0 < registrations "instanceToggled" _toggle_instance w
  ∧ 0 < registrations "pluginToggled" _toggle_plugin w.
Proof.
  unfold uninstall, uninstall_callbacks, bind.
  destruct (deregister_callback "instanceToggled" _toggle_instance w)
    as [wa [[]|e]] eqn:Ea; [|done].
  destruct (deregister_callback "pluginToggled" _toggle_plugin wa)
    as [wb [[]|e]] eqn:Eb; [|done].
  intros _.
  pose proof (deregister_ok_registered _ _ _ _ Ea) as Ha.
  pose proof (deregister_ok_registered _ _ _ _ Eb) as Hb.
  split; [done|].
  destruct (registrations_deregister _ _ _ Ha) as (wa' & Ea' & _ & _ & Ra).
  rewrite Ea in Ea'. injection Ea' as <-.
  rewrite (Ra "pluginToggled" _toggle_plugin). decide_names.
Qed.

Lemma install_installed_registrations h w w' r :
  registered "installed" w = true →
  0 < registrations "instanceToggled" _toggle_instance w →
  0 < registrations "pluginToggled" _toggle_plugin w →
  install h w = (w', r) →
  registrations "instanceToggled" _toggle_instance w'
  = registrations "instanceToggled" _toggle_instance w
  ∧ registrations "pluginToggled" _toggle_plugin w'
    = registrations "pluginToggled" _toggle_plugin w
  ∧ registered "installed" w' = true.
Proof.
  intros Ht Hi Hp E. rewrite install_installed in E by done.
  destruct (uninstall_spec (log already_installed w)) as (wu & Eu & Su & _ & Ui & Up);
    [exact Hi | exact Hp |].
  unfold bind at 1 in E. unfold bind at 1 in E.
  change (emit already_installed w) with (log already_installed w, Ok tt) in E.
  cbv beta iota in E. rewrite Eu in E.
  destruct (install_rest_spec _ _ _ _ E) as (Ri & Rp & _ & Rk & _).
  change (registrations "instanceToggled" _toggle_instance (log already_installed w))
    with (registrations "instanceToggled" _toggle_instance w) in Ui.
  change (registrations "pluginToggled" _toggle_plugin (log already_installed w))
    with (registrations "pluginToggled" _toggle_plugin w) in Up.
  split; [lia|]. split; [lia|]. apply Rk.
  unfold registered in *. by rewrite Su.
Qed.

(** The coherence asked of the starting state is exactly what two
    [install()] calls need: when the first returns and the second leaves
    each callback registered once, the starting state was coherent. *)
Lemma install_twice_once_only_if_coherent h1 h2 w w1 :
  install h1 w = (w1, Ok tt) →
  registrations "instanceToggled" _toggle_instance (after (install h2) w1) = 1 →
  registrations "pluginToggled" _toggle_plugin (after (install h2) w1) = 1 →
  coherent w.
Proof.
  intros E1. unfold after. destruct (install h2 w1) as [w2 r2] eqn:E2. simpl.
  intros Hi2 Hp2.
  destruct (registered "installed" w) eqn:Hf.
  - right. split; [done|].
    pose proof E1 as E1'. rewrite install_installed in E1' by done.
    unfold bind at 1 in E1'. unfold bind at 1 in E1'.
    change (emit already_installed w) with (log already_installed w, Ok tt) in E1'.
    cbv beta iota in E1'.
    destruct (uninstall (log already_installed w)) as [wu [[]|e]] eqn:Eu; [|done].
    destruct (uninstall_ok_registered _ _ Eu) as [Hi Hp].
    change (0 < registrations "instanceToggled" _toggle_instance w) in Hi.
    change (0 < registrations "pluginToggled" _toggle_plugin w) in Hp.
    destruct (install_installed_registrations _ _ _ _ Hf Hi Hp E1) as (Ri & Rp & Rk).
    destruct (install_installed_registrations h2 w1 w2 r2 Rk) as (Ri2 & Rp2 & _);
      [lia | lia | done |].
    lia.
  - left. split; [done|].
    pose proof E1 as E1'. rewrite install_not_installed in E1' by done.
    destruct (install_rest_spec _ _ _ _ E1') as (Ri & Rp & Ro & _).
    destruct (install_installed_registrations h2 w1 w2 r2 (Ro eq_refl))
      as (Ri2 & Rp2 & _); [lia | lia | done |].
    lia.
Qed.
